(** * CANN operator dispatch layer (ggml/src/ggml-cann/aclnn_ops.h)

    A shallow embedding of the dispatch core of the header:
    the two-phase invocation macro [GGML_CANN_CALL_ACLNN_OP], the unary
    and binary dispatch templates [ggml_cann_unary_op] and
    [ggml_cann_binary_op], and the helper macro [GGML_CANN_CALL_UNARY_OP].

    The header only declares [bcast_shape], [ggml_cann_create_tensor],
    [ACL_CHECK], [ggml_cann_pool_alloc] and the vendor kernels; their
    models below are marked as such. *)

From stdpp Require Import gmap strings list fin_maps.
From Stdlib Require Import ZArith NArith QArith Qminmax Lia.

Local Open Scope Z_scope.

(** ** Data model *)

(** Status code of the accelerator runtime; [ACL_SUCCESS] is the
    designated success value. *)
Definition aclError := Z.
Definition ACL_SUCCESS : aclError := 0.
Definition ACLNN_ERR_PARAM_INVALID : aclError := 161002.

(** [aclTensor]: the opaque device tensor handle.  Extents, strides and
    offset are in element units; [acl_data] is the base pointer. *)
Record aclTensor := AclTensor {
  acl_id : nat;
  acl_shape : list Z;
  acl_strides : list Z;
  acl_offset : Z;
  acl_elem_size : Z;
  acl_data : Z
}.

(** What a call of this layer can be observed to do. *)
Inductive event :=
| EvCreateTensor (id : nat)
| EvDestroyTensor (id : nat) (status : aclError)
| EvGetWorkspaceSize (op : string)
| EvPoolAlloc (size : N) (ptr : Z)
| EvPoolFree (ptr : Z)
| EvLaunch (op : string) (workspaceAddr : Z) (workspaceSize : N).

(** How a call can end without returning. *)
Inductive fault :=
| AclFault (stmt : string) (status : aclError)
| BcastFault (dim : nat) (n0 n1 : Z)
| RankFault
| NullSource (i : nat).

Inductive outcome (A : Type) :=
| Done (a : A)
| Fatal (f : fault).
Arguments Done {A} a.
Arguments Fatal {A} f.

Definition nullptr : Z := 0.

(** The memory pool of the backend context ([ctx.pool()]): an interface
    with [alloc] and [free]. *)
Class cann_pool (P : Type) := {
  pool_alloc : P -> N -> Z * P;
  pool_free : P -> Z -> P
}.

(** ** Index spaces *)

Fixpoint dot (idx strides : list Z) : Z :=
  match idx, strides with
  | i :: idx', b :: strides' => i * b + dot idx' strides'
  | _, _ => 0
  end.

(** All multi-indices of a shape, dimension 0 running fastest. *)
Fixpoint indices (shape : list Z) : list (list Z) :=
  match shape with
  | [] => [[]]
  | n :: shape' =>
      indices shape' ≫= (fun rest => (fun i => i :: rest) <$> seqZ 0 n)
  end.

(** Mathematical broadcasting: the extent of the result in one
    dimension, and the index at which an operand of extents [extents] is
    read for the result index [idx]. *)
Definition bcast_extent (n0 n1 : Z) : Z := if Z.eqb n0 1 then n1 else n0.

Definition bcast_index (extents idx : list Z) : list Z :=
  zip_with (fun n i => if Z.eqb n 1 then 0 else i) extents idx.

(** A mismatched dimension has one operand of extent 1. *)
Definition bcast_compatible (n0 n1 : Z) : Prop :=
  n0 <> n1 -> n0 = 1 \/ n1 = 1.

(** In a trace, every release to the pool comes after every submission. *)
Definition released_after_submission (tr : list event) : Prop :=
  forall i j ptr name addr size,
    tr !! i = Some (EvPoolFree ptr) ->
    tr !! j = Some (EvLaunch name addr size) ->
    (j < i)%nat.

Definition is_create (e : event) : bool :=
  match e with EvCreateTensor _ => true | _ => false end.
Definition is_destroy (e : event) : bool :=
  match e with EvDestroyTensor _ st => Z.eqb st ACL_SUCCESS | _ => false end.
Definition is_query (e : event) : bool :=
  match e with EvGetWorkspaceSize _ => true | _ => false end.
Definition is_launch (e : event) : bool :=
  match e with EvLaunch _ _ _ => true | _ => false end.
Definition is_pool_alloc (e : event) : bool :=
  match e with EvPoolAlloc _ _ => true | _ => false end.

Definition count (p : event -> bool) (tr : list event) : nat :=
  length (List.filter p tr).

(** Number of handles created, and of handles destroyed, in a trace. *)
Definition created (tr : list event) : nat := count is_create tr.
Definition destroyed (tr : list event) : nat := count is_destroy tr.

(** The vendor runtime as far as its answers are not determined by this
    layer: the status it returns when a handle is destroyed. *)
Class acl_runtime := {
  aclDestroyTensor_status : aclTensor -> aclError
}.

Section State.

Context {T P : Type}.

(** [ggml_tensor]: the host-side descriptor and graph node.  [nb] and
    [offs] are in bytes; [src] are the source tensors of the node. *)
#[warnings="-register-all"]
Inductive ggml_tensor := Tensor {
  type_size : Z;
  ne : list Z;
  nb : list Z;
  data : Z;
  offs : Z;
  op_params : list T;
  src : list ggml_tensor
}.

(** [ggml_backend_cann_context], with the device memory it computes on
    (byte address of an element to its value) and the trace of calls. *)
Record cann_context := Ctx {
  trace : list event;
  device_mem : gmap Z T;
  pool : P;
  next_id : nat
}.

Definition M (A : Type) : Type := cann_context -> outcome A * cann_context.

Definition ret {A} (a : A) : M A := fun s => (Done a, s).
Definition fail {A} (f : fault) : M A := fun s => (Fatal f, s).
Definition bind {A B} (m : M A) (k : A -> M B) : M B :=
  fun s => match m s with
           | (Done a, s') => k a s'
           | (Fatal f, s') => (Fatal f, s')
           end.

Definition emit (e : event) : M unit :=
  fun s => (Done tt, Ctx (trace s ++ [e]) (device_mem s) (pool s) (next_id s)).

End State.

Notation "'let*' x ':=' m 'in' k" := (bind m (fun x => k))
  (at level 10, x pattern, m at level 100, k at level 200).
Notation "m ';;' k" := (bind m (fun _ => k))
  (at level 100, k at level 200, right associativity).

Section Dispatch.

Context {T : Type} `{Hinh : Inhabited T}.
Context {P : Type} `{Hpool : cann_pool P}.
Context `{Hrt : acl_runtime}.

Local Abbreviation M := (@M T P).
Local Abbreviation ggml_tensor := (@ggml_tensor T).
Local Abbreviation cann_context := (@cann_context T P).

(** ** Missing collaborators *)

(** Modelled from the spec: the [ACL_CHECK] macro of common.h, which is
    not in this header.  Every device-facing status is checked; a
    non-success status is a hard failure of the current call, reported
    with the checked statement and the status code, and control does not
    continue past it. *)
Definition ACL_CHECK (stmt : string) (call : M aclError) : M unit :=
  let* status := call in
  if Z.eqb status ACL_SUCCESS then ret tt else fail (AclFault stmt status).

(** Modelled from the spec: [ggml_cann_pool_alloc] of common.h, a scoped
    owner of one pool allocation: its constructor acquires [size] bytes
    from the pool, [get] is the pointer, and its destructor releases the
    pointer to the pool when the enclosing block ends. *)
Definition pool_alloc_ctor (size : N) : M Z :=
  fun s => let '(ptr, p') := pool_alloc (pool s) size in
           (Done ptr,
            Ctx (trace s ++ [EvPoolAlloc size ptr]) (device_mem s) p' (next_id s)).

(** Modelled from the spec: the destructor of [ggml_cann_pool_alloc],
    which returns the allocation to the pool. *)
Definition pool_alloc_dtor (ptr : Z) : M unit :=
  fun s => (Done tt,
            Ctx (trace s ++ [EvPoolFree ptr]) (device_mem s)
                (pool_free (pool s) ptr) (next_id s)).

(** A vendor operator [aclnn<OP_NAME>] with its non-tensor arguments
    bound: the name, the workspace-size query (status and reported
    size in bytes, a [uint64_t]) and the effect of the submitted kernel
    on device memory (status and memory). *)
Record aclnn_op := AclnnOp {
  op_name : string;
  op_GetWorkspaceSize : list aclTensor -> aclError * N;
  op_kernel : list aclTensor -> gmap Z T -> aclError * gmap Z T
}.

(** [aclnn<OP_NAME>GetWorkspaceSize(args, &workspaceSize, &executor)] *)
Definition aclnnGetWorkspaceSize (op : aclnn_op) (args : list aclTensor)
  : M (aclError * N) :=
  emit (EvGetWorkspaceSize (op_name op));;
  ret (op_GetWorkspaceSize op args).

(** [aclnn<OP_NAME>(workspaceAddr, workspaceSize, executor, ctx.stream())]:
    the kernel is queued on the stream of the context, which runs the
    submissions in order. *)
Definition aclnnLaunch (op : aclnn_op) (args : list aclTensor)
    (workspaceAddr : Z) (workspaceSize : N) : M aclError :=
  fun s => let '(status, m') := op_kernel op args (device_mem s) in
           (Done status,
            Ctx (trace s ++ [EvLaunch (op_name op) workspaceAddr workspaceSize])
                m' (pool s) (next_id s)).

Definition stmt_query (op : aclnn_op) : string :=
  "aclnn" +:+ op_name op +:+ "GetWorkspaceSize".
Definition stmt_launch (op : aclnn_op) : string :=
  "aclnn" +:+ op_name op.

(** ** The two-phase invocation macro *)

(** [GGML_CANN_CALL_ACLNN_OP(OP_NAME, ...)].  The query writes
    [workspaceSize] (and the executor, which stands for the operator
    with its arguments) and its status is checked.  The
    [workspace_allocator] object is local to the block of the [if], so
    it is destroyed at the closing brace of that block, before the
    operator is submitted; [workspaceAddr] keeps the pointer. *)
Definition GGML_CANN_CALL_ACLNN_OP (op : aclnn_op) (args : list aclTensor)
  : M unit :=
  let* r := aclnnGetWorkspaceSize op args in
  let workspaceSize := snd r in
  ACL_CHECK (stmt_query op) (ret (fst r));;
  let* workspaceAddr :=
    (if N.ltb 0 workspaceSize then
       let* workspace_allocator := pool_alloc_ctor workspaceSize in
       let workspaceAddr := workspace_allocator in
       pool_alloc_dtor workspace_allocator;;
       ret workspaceAddr
     else ret nullptr) in
  ACL_CHECK (stmt_launch op) (aclnnLaunch op args workspaceAddr workspaceSize).

(** ** Tensor-handle adapter *)

Definition fresh_handle (shape strides : list Z) (offset esize base : Z)
  : M aclTensor :=
  fun s => let h := AclTensor (next_id s) shape strides offset esize base in
           (Done h,
            Ctx (trace s ++ [EvCreateTensor (next_id s)]) (device_mem s)
                (pool s) (S (next_id s))).

(** Modelled from the spec: [ggml_cann_create_tensor] of acl_tensor.h,
    with the extents and byte strides to encode given explicitly.  The
    handle carries the extents, the strides and the offset converted
    from bytes to elements, and the base pointer; no data is copied. *)
Definition ggml_cann_create_tensor_with (t : ggml_tensor)
    (ne' nb' : list Z) : M aclTensor :=
  fresh_handle ne' ((fun b => b / type_size t) <$> nb')
               (offs t / type_size t) (type_size t) (data t).

(** Modelled from the spec: [ggml_cann_create_tensor(tensor)], the
    handle of the descriptor as it is. *)
Definition ggml_cann_create_tensor (t : ggml_tensor) : M aclTensor :=
  ggml_cann_create_tensor_with t (ne t) (nb t).

(** [aclDestroyTensor(h)] of the vendor runtime. *)
Definition aclDestroyTensor (h : aclTensor) : M aclError :=
  let st := aclDestroyTensor_status h in
  emit (EvDestroyTensor (acl_id h) st);;
  ret st.

(** [dst->src[i]]; the source dereferences the pointer, so a node
    without that source cannot be dispatched. *)
Definition node_src (dst : ggml_tensor) (i : nat) : M ggml_tensor :=
  match src dst !! i with
  | Some t => ret t
  | None => fail (NullSource i)
  end.

(** ** Broadcast resolver *)

(** Modelled from the spec: one dimension of the broadcast plan of
    [bcast_shape], for extents [n0], [n1] and byte strides [b0], [b1] of
    the two operands.  Equal extents are kept; on a
    mismatch the operand of extent 1 is expanded to the extent of the
    other with stride 0; a mismatch with neither side 1 has no plan. *)
Definition bcast_dim (n0 b0 n1 b1 : Z) : option ((Z * Z) * (Z * Z)) :=
  if Z.eqb n0 n1 then Some ((n0, b0), (n1, b1))
  else if Z.eqb n0 1 then Some ((n1, 0), (n1, b1))
  else if Z.eqb n1 1 then Some ((n0, b0), (n0, 0))
  else None.

(** Modelled from the spec: the broadcast plan of [bcast_shape] for all
    dimensions, compared position by position from dimension [k] on:
    virtual extents and byte strides for both operands, or the fault
    naming the first mismatched dimension.  Descriptors of different
    ranks do not occur (the arrays have the fixed maximum rank). *)
Fixpoint bcast_plan (k : nat) (ne0 nb0 ne1 nb1 : list Z)
  : fault + (list (Z * Z) * list (Z * Z)) :=
  match ne0, nb0, ne1, nb1 with
  | [], [], [], [] => inr ([], [])
  | n0 :: ne0', b0 :: nb0', n1 :: ne1', b1 :: nb1' =>
      match bcast_dim n0 b0 n1 b1 with
      | None => inl (BcastFault k n0 n1)
      | Some (d0, d1) =>
          match bcast_plan (S k) ne0' nb0' ne1' nb1' with
          | inl f => inl f
          | inr (p0, p1) => inr (d0 :: p0, d1 :: p1)
          end
      end
  | _, _, _, _ => inl RankFault
  end.

Definition list_Z_eqb (l1 l2 : list Z) : bool := bool_decide (l1 = l2).

(** Modelled from the spec: [bcast_shape], declared in this header and
    defined elsewhere.  Identical shapes give the three handles of the
    descriptors as they are.  Otherwise each mismatched dimension is
    expanded virtually on the operand of extent 1, and resolution fails
    before any handle exists when a mismatch has neither side at 1.
    The destination handle is always that of the destination's own
    shape. *)
Definition bcast_shape (src0 src1 dst : ggml_tensor)
  : M (aclTensor * aclTensor * aclTensor) :=
  if list_Z_eqb (ne src0) (ne src1) then
    let* acl_src0 := ggml_cann_create_tensor src0 in
    let* acl_src1 := ggml_cann_create_tensor src1 in
    let* acl_dst := ggml_cann_create_tensor dst in
    ret (acl_src0, acl_src1, acl_dst)
  else
    match bcast_plan 0 (ne src0) (nb src0) (ne src1) (nb src1) with
    | inl f => fail f
    | inr (p0, p1) =>
        let* acl_src0 := ggml_cann_create_tensor_with src0 (p0.*1) (p0.*2) in
        let* acl_src1 := ggml_cann_create_tensor_with src1 (p1.*1) (p1.*2) in
        let* acl_dst := ggml_cann_create_tensor dst in
        ret (acl_src0, acl_src1, acl_dst)
    end.

(** ** Generic dispatch templates *)

(** [template <auto binary_op> void ggml_cann_binary_op(ctx, dst)] *)
Definition ggml_cann_binary_op
    (binary_op : aclTensor -> aclTensor -> aclTensor -> M unit)
    (dst : ggml_tensor) : M unit :=
  let* src0 := node_src dst 0 in
  let* src1 := node_src dst 1 in
  let* handles := bcast_shape src0 src1 dst in
  let '(acl_src0, acl_src1, acl_dst) := handles in
  binary_op acl_src0 acl_src1 acl_dst;;
  ACL_CHECK "aclDestroyTensor(acl_src0)" (aclDestroyTensor acl_src0);;
  ACL_CHECK "aclDestroyTensor(acl_src1)" (aclDestroyTensor acl_src1);;
  ACL_CHECK "aclDestroyTensor(acl_dst)" (aclDestroyTensor acl_dst).

(** [template <void unary_op(...)> void ggml_cann_unary_op(ctx, dst)] *)
Definition ggml_cann_unary_op
    (unary_op : aclTensor -> aclTensor -> M unit)
    (dst : ggml_tensor) : M unit :=
  let* src := node_src dst 0 in
  let* acl_src := ggml_cann_create_tensor src in
  let* acl_dst := ggml_cann_create_tensor dst in
  unary_op acl_src acl_dst;;
  ACL_CHECK "aclDestroyTensor(acl_src)" (aclDestroyTensor acl_src);;
  ACL_CHECK "aclDestroyTensor(acl_dst)" (aclDestroyTensor acl_dst).

(** [GGML_CANN_CALL_UNARY_OP(OP_NAME)]: the lambda around the two-phase
    call, handed to the unary template. *)
Definition GGML_CANN_CALL_UNARY_OP (op : aclnn_op) (dst : ggml_tensor)
  : M unit :=
  let lambda := fun acl_src acl_dst =>
    GGML_CANN_CALL_ACLNN_OP op [acl_src; acl_dst] in
  ggml_cann_unary_op lambda dst.

(** Modelled from the spec: a two-operand procedure that internally
    follows the two-phase protocol (the shape of [aclnn_add] and its
    siblings when given a destination; their bodies are not in this
    header). *)
Definition aclnn_binary (op : aclnn_op)
    (acl_src0 acl_src1 acl_dst : aclTensor) : M unit :=
  GGML_CANN_CALL_ACLNN_OP op [acl_src0; acl_src1; acl_dst].

(** ** Elementwise kernels of the vendor library *)

(** Byte address of the element a handle designates at a multi-index. *)
Definition acl_addr (h : aclTensor) (idx : list Z) : Z :=
  acl_data h + (acl_offset h + dot idx (acl_strides h)) * acl_elem_size h.

(** Byte address of the element of a descriptor at a multi-index. *)
Definition tensor_addr (t : ggml_tensor) (idx : list Z) : Z :=
  data t + offs t + dot idx (nb t).

(** Stores in order. *)
Definition store_all (kvs : list (Z * T)) (m : gmap Z T) : gmap Z T :=
  foldl (fun acc kv => <[kv.1 := kv.2]> acc) m kvs.

(** Modelled from the spec: a pure elementwise one-operand kernel.  It
    walks the index space of the output handle, reads the input through
    its handle and writes the output through its handle; handles of
    different shapes are refused. *)
Definition elementwise1 (f : T -> T) (args : list aclTensor)
    (m : gmap Z T) : aclError * gmap Z T :=
  match args with
  | [self; out] =>
      if list_Z_eqb (acl_shape self) (acl_shape out) then
        (ACL_SUCCESS,
         store_all ((fun idx => (acl_addr out idx, f (m !!! acl_addr self idx)))
                      <$> indices (acl_shape out)) m)
      else (ACLNN_ERR_PARAM_INVALID, m)
  | _ => (ACLNN_ERR_PARAM_INVALID, m)
  end.

(** Modelled from the spec: a pure elementwise two-operand kernel over
    three handles of one common shape. *)
Definition elementwise2 (f : T -> T -> T) (args : list aclTensor)
    (m : gmap Z T) : aclError * gmap Z T :=
  match args with
  | [self; other; out] =>
      if list_Z_eqb (acl_shape self) (acl_shape out)
         && list_Z_eqb (acl_shape other) (acl_shape out) then
        (ACL_SUCCESS,
         store_all ((fun idx => (acl_addr out idx,
                                 f (m !!! acl_addr self idx)
                                   (m !!! acl_addr other idx)))
                      <$> indices (acl_shape out)) m)
      else (ACLNN_ERR_PARAM_INVALID, m)
  | _ => (ACLNN_ERR_PARAM_INVALID, m)
  end.

(** The descriptor's strides and offset are whole numbers of elements. *)
Definition aligned (t : ggml_tensor) : bool :=
  negb (Z.eqb (type_size t) 0)
  && Z.eqb (offs t mod type_size t) 0
  && forallb (fun b => Z.eqb (b mod type_size t) 0) (nb t).

(** The descriptor has one byte stride per extent. *)
Definition well_formed (t : ggml_tensor) : Prop :=
  length (nb t) = length (ne t).

(** ** Vocabulary of the statements *)

(** The context right after the workspace-size query. *)
Definition after_query (op : aclnn_op) (s : cann_context) : cann_context :=
  Ctx (trace s ++ [EvGetWorkspaceSize (op_name op)])
      (device_mem s) (pool s) (next_id s).

(** The handle the adapter builds for a descriptor under a given id. *)
Definition handle_of (t : ggml_tensor) (id : nat) : aclTensor :=
  AclTensor id (ne t) ((fun b => b / type_size t) <$> nb t)
            (offs t / type_size t) (type_size t) (data t).

(** The context in which the unary template calls its operator. *)
Definition unary_entry (s : cann_context) : cann_context :=
  Ctx (trace s ++ [EvCreateTensor (next_id s); EvCreateTensor (S (next_id s))])
      (device_mem s) (pool s) (S (S (next_id s))).

(** The handle of a descriptor under a virtual shape: the plan [p]
    lists extent and byte stride per dimension. *)
Definition virtual_handle (t : ggml_tensor) (p : list (Z * Z)) (id : nat)
  : aclTensor :=
  AclTensor id (p.*1) ((fun b => b / type_size t) <$> p.*2)
            (offs t / type_size t) (type_size t) (data t).

(** The three handles of the resolver for handle ids from [id] on, or
    its fault. *)
Definition bcast_handles (src0 src1 dst : ggml_tensor) (id : nat)
  : fault + (aclTensor * aclTensor * aclTensor) :=
  if list_Z_eqb (ne src0) (ne src1) then
    inr (handle_of src0 id, handle_of src1 (S id), handle_of dst (S (S id)))
  else
    match bcast_plan 0 (ne src0) (nb src0) (ne src1) (nb src1) with
    | inl f => inl f
    | inr (p0, p1) =>
        inr (virtual_handle src0 p0 id, virtual_handle src1 p1 (S id),
             handle_of dst (S (S id)))
    end.

(** The context in which the binary template calls its operator. *)
Definition binary_entry (s : cann_context) : cann_context :=
  Ctx (trace s ++ [EvCreateTensor (next_id s); EvCreateTensor (S (next_id s));
                   EvCreateTensor (S (S (next_id s)))])
      (device_mem s) (pool s) (S (S (S (next_id s)))).

(** The two destroy calls that end the unary template. *)
Definition unary_exit (acl_src acl_dst : aclTensor) : M unit :=
  ACL_CHECK "aclDestroyTensor(acl_src)" (aclDestroyTensor acl_src);;
  ACL_CHECK "aclDestroyTensor(acl_dst)" (aclDestroyTensor acl_dst).

(** The three destroy calls that end the binary template. *)
Definition binary_exit (acl_src0 acl_src1 acl_dst : aclTensor) : M unit :=
  ACL_CHECK "aclDestroyTensor(acl_src0)" (aclDestroyTensor acl_src0);;
  ACL_CHECK "aclDestroyTensor(acl_src1)" (aclDestroyTensor acl_src1);;
  ACL_CHECK "aclDestroyTensor(acl_dst)" (aclDestroyTensor acl_dst).

(** A wrapped procedure that neither creates nor destroys handles. *)
Definition handle_neutral (run : M unit) : Prop :=
  forall s, created (trace (run s).2) = created (trace s)
            /\ destroyed (trace (run s).2) = destroyed (trace s).

(** The contents of a descriptor, one value per multi-index. *)
Definition contents (m : gmap Z T) (t : ggml_tensor) : list T :=
  (fun idx => m !!! tensor_addr t idx) <$> indices (ne t).

End Dispatch.

(** ** The clamp operator *)

#[export] Instance Q_inhabited : Inhabited Q := populate 0%Q.

(** Modelled from the spec: the kernel function of the vendor's clamp
    operator as the header documents it for [ggml_cann_clamp],
    y = max(min(x, max_value), min_value), on rational values. *)
Definition clamp_value (min_value max_value x : Q) : Q :=
  Qmax (Qmin x max_value) min_value.

(** Modelled from the spec: [ggml_cann_clamp], declared in this header
    and defined elsewhere.  An entry of the operator catalog: [min] and
    [max] are read from the parameter block of the destination node and
    bound to the clamp operator, which runs under the unary pattern.
    [query] is the answer of the vendor's workspace-size query. *)
Definition ggml_cann_clamp {P : Type} `{cann_pool P} `{acl_runtime}
    (query : list aclTensor -> aclError * N) (dst : @ggml_tensor Q)
  : @M Q P unit :=
  let min := op_params dst !!! 0%nat in
  let max := op_params dst !!! 1%nat in
  GGML_CANN_CALL_UNARY_OP
    (AclnnOp "Clamp" query (elementwise1 (clamp_value min max))) dst.

(** ** A concrete runtime *)

(** A pool that hands out increasing addresses. *)
#[export] Instance bump_pool : cann_pool Z := {
  pool_alloc p size := (p, p + Z.of_N size);
  pool_free p _ := p
}.

#[export] Instance healthy_runtime : acl_runtime := {
  aclDestroyTensor_status _ := ACL_SUCCESS
}.

(** A runtime that refuses to destroy the handle of id 1. *)
Definition faulty_runtime : acl_runtime :=
  {| aclDestroyTensor_status h :=
       if Nat.eqb (acl_id h) 1 then 1 else ACL_SUCCESS |}.

Definition f32 : Z := 4.

Definition ctx0 {T : Type} (m : gmap Z T) : @cann_context T Z :=
  Ctx [] m 4096 0.

Definition query32 : list aclTensor -> aclError * N :=
  fun _ => (ACL_SUCCESS, 32%N).

(** Shapes (2,3) and (2,1): dimension 0 is the innermost one, so the
    extents are [3;2;1;1] and [1;2;1;1]. *)
Definition t_src0 : @ggml_tensor Z :=
  Tensor f32 [3;2;1;1] [4;12;24;24] 0 0 [] [].
Definition t_src1 : @ggml_tensor Z :=
  Tensor f32 [1;2;1;1] [4;4;8;8] 100 0 [] [].
Definition t_add : @ggml_tensor Z :=
  Tensor f32 [3;2;1;1] [4;12;24;24] 200 0 [] [t_src0; t_src1].
Definition mem_add : gmap Z Z :=
  list_to_map [(0,1);(4,2);(8,3);(12,4);(16,5);(20,6);(100,10);(104,20)].

(** Shapes (2,3) and (2,4). *)
Definition t_wide : @ggml_tensor Z :=
  Tensor f32 [4;2;1;1] [4;16;32;32] 100 0 [] [].
Definition t_add_wide : @ggml_tensor Z :=
  Tensor f32 [3;2;1;1] [4;12;24;24] 200 0 [] [t_src0; t_wide].

(** A unary node over three integers. *)
Definition t_x : @ggml_tensor Z :=
  Tensor f32 [3;1;1;1] [4;12;12;12] 0 0 [] [].
Definition t_y : @ggml_tensor Z :=
  Tensor f32 [3;1;1;1] [4;12;12;12] 64 0 [] [t_x].
Definition mem_x : gmap Z Z := list_to_map [(0,-1);(4,5);(8,2)].

Definition op_abs : @aclnn_op Z := AclnnOp "Abs" query32 (elementwise1 Z.abs).
(** The same operator on a device whose workspace-size query fails, and
    on one whose submission fails. *)
Definition op_abs_query_fails : @aclnn_op Z :=
  AclnnOp "Abs" (fun _ => (1, 0%N)) (elementwise1 Z.abs).
Definition op_abs_launch_fails : @aclnn_op Z :=
  AclnnOp "Abs" query32 (fun _ m => (1, m)).
(** The same operator when it needs no workspace. *)
Definition op_abs_no_workspace : @aclnn_op Z :=
  AclnnOp "Abs" (fun _ => (ACL_SUCCESS, 0%N)) (elementwise1 Z.abs).

(** The handles of that node, as the unary template creates them first. *)
Definition abs_args : list aclTensor := [handle_of t_x 0; handle_of t_y 1].

(** The lambdas of [GGML_CANN_CALL_UNARY_OP] for these operators. *)
Definition call_abs (acl_src acl_dst : aclTensor) : @M Z Z unit :=
  GGML_CANN_CALL_ACLNN_OP op_abs [acl_src; acl_dst].
Definition call_abs_query_fails (acl_src acl_dst : aclTensor) : @M Z Z unit :=
  GGML_CANN_CALL_ACLNN_OP op_abs_query_fails [acl_src; acl_dst].

(** The clamp node of the scenario: input [-1, 0.5, 2], range [0,1]. *)
Definition q_x : @ggml_tensor Q :=
  Tensor f32 [3;1;1;1] [4;12;12;12] 0 0 [] [].
Definition q_clamp : @ggml_tensor Q :=
  Tensor f32 [3;1;1;1] [4;12;12;12] 64 0 [0%Q; 1%Q] [q_x].
Definition mem_q : gmap Z Q :=
  list_to_map [(0, (-1)%Q); (4, (1#2)%Q); (8, 2%Q)].

(** ** Vocabulary of the further statements *)

Definition is_pool_free (e : event) : bool :=
  match e with EvPoolFree _ => true | _ => false end.

(** A destroy call, whatever status it returned. *)
Definition is_destroy_call (e : event) : bool :=
  match e with EvDestroyTensor _ _ => true | _ => false end.

(** The destroy calls issued for a list of handles in order, up to and
    including the first one that the runtime refuses. *)
Fixpoint destroy_prefix `{acl_runtime} (hs : list aclTensor) : list event :=
  match hs with
  | [] => []
  | h :: hs' =>
      EvDestroyTensor (acl_id h) (aclDestroyTensor_status h)
      :: (if Z.eqb (aclDestroyTensor_status h) ACL_SUCCESS
          then destroy_prefix hs' else [])
  end.

(** The pool events of a call that was told to use [n] bytes and got
    [ptr] from the pool, and the workspace address it submits with. *)
Definition workspace_events (n : N) (ptr : Z) : list event :=
  if N.eqb n 0 then [] else [EvPoolAlloc n ptr; EvPoolFree ptr].

Definition workspace_addr (n : N) (ptr : Z) : Z :=
  if N.eqb n 0 then nullptr else ptr.

(** A pool with stack discipline: releasing the pointer an acquisition
    returned gives back the pool as it was before that acquisition. *)
Definition pool_lifo (P : Type) `{cann_pool P} : Prop :=
  forall (p p' : P) (n : N) (ptr : Z),
    pool_alloc p n = (ptr, p') -> pool_free p' ptr = p.

(** A pool that is a stack: it hands out its top and a release resets
    the top to the released pointer. *)
Inductive stack_pool := StackTop (top : Z).

Definition stack_pool_ops : cann_pool stack_pool :=
  {| pool_alloc p size :=
       match p with StackTop t => (t, StackTop (t + Z.of_N size)) end;
     pool_free _ ptr := StackTop ptr |}.

Definition ctx_stack (m : gmap Z Z) : @cann_context Z stack_pool :=
  Ctx [] m (StackTop 4096) 0.

(** The handles of the add node of shapes (2,3) and (2,1). *)
Definition add_h0 : aclTensor := AclTensor 0 [3;2;1;1] [1;3;6;6] 0 4 0.
Definition add_h1 : aclTensor := AclTensor 1 [3;2;1;1] [0;1;2;2] 0 4 100.
Definition add_hd : aclTensor := AclTensor 2 [3;2;1;1] [1;3;6;6] 0 4 200.
Definition op_add : @aclnn_op Z := AclnnOp "Add" query32 (elementwise2 Z.add).

(** * Theory *)

Section Theory.

Context {T : Type} `{Hinh : Inhabited T}.
Context {P : Type} `{Hpool : cann_pool P}.
Context `{Hrt : acl_runtime}.

Local Abbreviation M := (@M T P).
Local Abbreviation ggml_tensor := (@ggml_tensor T).
Local Abbreviation cann_context := (@cann_context T P).
Local Abbreviation aclnn_op := (@aclnn_op T).

Implicit Types (s : cann_context) (op : aclnn_op) (args : list aclTensor).

(** ** The two-phase protocol, path by path *)

Lemma call_query_failed op args s st n :
  op_GetWorkspaceSize op args = (st, n) ->
  st <> ACL_SUCCESS ->
  GGML_CANN_CALL_ACLNN_OP op args s
  = (Fatal (AclFault (stmt_query op) st), after_query op s).
Proof.
  intros Hq Hst.
  unfold GGML_CANN_CALL_ACLNN_OP, aclnnGetWorkspaceSize, ACL_CHECK, bind,
    emit, ret, fail; simpl.
  rewrite Hq; simpl.
  destruct (Z.eqb_spec st ACL_SUCCESS); [contradiction | reflexivity].
Qed.

Lemma call_no_workspace op args s st m' :
  op_GetWorkspaceSize op args = (ACL_SUCCESS, 0%N) ->
  op_kernel op args (device_mem s) = (st, m') ->
  GGML_CANN_CALL_ACLNN_OP op args s
  = (if Z.eqb st ACL_SUCCESS then Done tt
     else Fatal (AclFault (stmt_launch op) st),
     Ctx (trace s ++ [EvGetWorkspaceSize (op_name op);
                      EvLaunch (op_name op) nullptr 0])
         m' (pool s) (next_id s)).
Proof.
  intros Hq Hk.
  unfold GGML_CANN_CALL_ACLNN_OP, aclnnGetWorkspaceSize, aclnnLaunch,
    ACL_CHECK, bind, emit, ret, fail; simpl.
  rewrite Hq; simpl. rewrite Hk; simpl.
  rewrite <- app_assoc; simpl.
  destruct (Z.eqb st ACL_SUCCESS); reflexivity.
Qed.

Lemma call_with_workspace op args s n st m' ptr p' :
  op_GetWorkspaceSize op args = (ACL_SUCCESS, n) ->
  n <> 0%N ->
  pool_alloc (pool s) n = (ptr, p') ->
  op_kernel op args (device_mem s) = (st, m') ->
  GGML_CANN_CALL_ACLNN_OP op args s
  = (if Z.eqb st ACL_SUCCESS then Done tt
     else Fatal (AclFault (stmt_launch op) st),
     Ctx (trace s ++ [EvGetWorkspaceSize (op_name op);
                      EvPoolAlloc n ptr; EvPoolFree ptr;
                      EvLaunch (op_name op) ptr n])
         m' (pool_free p' ptr) (next_id s)).
Proof.
  intros Hq Hn Ha Hk.
  unfold GGML_CANN_CALL_ACLNN_OP, aclnnGetWorkspaceSize, aclnnLaunch,
    pool_alloc_ctor, pool_alloc_dtor, ACL_CHECK, bind, emit, ret, fail;
    simpl.
  rewrite Hq; simpl.
  destruct (N.ltb_spec 0 n) as [_ | Hle]; [| lia].
  simpl. rewrite Ha; simpl. rewrite Hk; simpl.
  repeat rewrite <- app_assoc; simpl.
  destruct (Z.eqb st ACL_SUCCESS); reflexivity.
Qed.

(** ** The templates, path by path *)

Lemma unary_op_run (unary_op : aclTensor -> aclTensor -> M unit)
    (dst src_t : ggml_tensor) s :
  src dst !! 0%nat = Some src_t ->
  ggml_cann_unary_op unary_op dst s
  = match unary_op (handle_of src_t (next_id s))
                   (handle_of dst (S (next_id s))) (unary_entry s) with
    | (Done _, s3) =>
        unary_exit (handle_of src_t (next_id s))
                   (handle_of dst (S (next_id s))) s3
    | (Fatal f, s3) => (Fatal f, s3)
    end.
Proof.
  intros Hsrc.
  unfold ggml_cann_unary_op, node_src, ggml_cann_create_tensor,
    ggml_cann_create_tensor_with, fresh_handle, unary_exit, unary_entry,
    handle_of.
  rewrite Hsrc. unfold bind at 1 2 3; simpl.
  rewrite <- app_assoc; simpl.
  unfold bind at 1. reflexivity.
Qed.

Lemma binary_op_run
    (binary_op : aclTensor -> aclTensor -> aclTensor -> M unit)
    (dst src0 src1 : ggml_tensor) s :
  src dst !! 0%nat = Some src0 ->
  src dst !! 1%nat = Some src1 ->
  ggml_cann_binary_op binary_op dst s
  = match bcast_shape src0 src1 dst s with
    | (Done (h0, h1, hd), s1) =>
        match binary_op h0 h1 hd s1 with
        | (Done _, s2) => binary_exit h0 h1 hd s2
        | (Fatal f, s2) => (Fatal f, s2)
        end
    | (Fatal f, s1) => (Fatal f, s1)
    end.
Proof.
  intros Hs0 Hs1.
  unfold ggml_cann_binary_op, node_src, binary_exit.
  rewrite Hs0, Hs1. unfold bind at 1 2 3; simpl.
  destruct (bcast_shape src0 src1 dst s) as [[[[h0 h1] hd] | f] s1];
    [| reflexivity].
  unfold bind at 1. reflexivity.
Qed.

Lemma bcast_shape_run (src0 src1 dst : ggml_tensor) s :
  bcast_shape src0 src1 dst s
  = match bcast_handles src0 src1 dst (next_id s) with
    | inl f => (Fatal f, s)
    | inr hs => (Done hs, binary_entry s)
    end.
Proof.
  unfold bcast_shape, bcast_handles, ggml_cann_create_tensor,
    ggml_cann_create_tensor_with, fresh_handle, binary_entry, handle_of,
    virtual_handle.
  destruct (list_Z_eqb (ne src0) (ne src1)).
  - unfold bind, ret; simpl. repeat rewrite <- app_assoc. reflexivity.
  - destruct (bcast_plan 0 (ne src0) (nb src0) (ne src1) (nb src1))
      as [f | [p0 p1]]; [reflexivity |].
    unfold bind, ret; simpl. repeat rewrite <- app_assoc. reflexivity.
Qed.

Lemma destroy_checked (stmt : string) (h : aclTensor) s :
  ACL_CHECK stmt (aclDestroyTensor h) s
  = (if Z.eqb (aclDestroyTensor_status h) ACL_SUCCESS then Done tt
     else Fatal (AclFault stmt (aclDestroyTensor_status h)),
     Ctx (trace s ++ [EvDestroyTensor (acl_id h) (aclDestroyTensor_status h)])
         (device_mem s) (pool s) (next_id s)).
Proof.
  unfold ACL_CHECK, aclDestroyTensor, bind, emit, ret, fail; simpl.
  destruct (Z.eqb (aclDestroyTensor_status h) ACL_SUCCESS); reflexivity.
Qed.

Lemma count_app (p : event -> bool) (tr1 tr2 : list event) :
  count p (tr1 ++ tr2) = (count p tr1 + count p tr2)%nat.
Proof. unfold count. rewrite List.filter_app, length_app. reflexivity. Qed.

Lemma unary_exit_run (a b : aclTensor) s :
  unary_exit a b s
  = if Z.eqb (aclDestroyTensor_status a) ACL_SUCCESS then
      (if Z.eqb (aclDestroyTensor_status b) ACL_SUCCESS then Done tt
       else Fatal (AclFault "aclDestroyTensor(acl_dst)"
                            (aclDestroyTensor_status b)),
       Ctx (trace s ++ [EvDestroyTensor (acl_id a) (aclDestroyTensor_status a);
                        EvDestroyTensor (acl_id b) (aclDestroyTensor_status b)])
           (device_mem s) (pool s) (next_id s))
    else
      (Fatal (AclFault "aclDestroyTensor(acl_src)" (aclDestroyTensor_status a)),
       Ctx (trace s ++ [EvDestroyTensor (acl_id a) (aclDestroyTensor_status a)])
           (device_mem s) (pool s) (next_id s)).
Proof.
  unfold unary_exit. unfold bind at 1. rewrite destroy_checked.
  destruct (Z.eqb (aclDestroyTensor_status a) ACL_SUCCESS); [| reflexivity].
  rewrite destroy_checked; simpl. rewrite <- app_assoc. reflexivity.
Qed.

Lemma binary_exit_run (a b c : aclTensor) s :
  binary_exit a b c s
  = if Z.eqb (aclDestroyTensor_status a) ACL_SUCCESS then
      if Z.eqb (aclDestroyTensor_status b) ACL_SUCCESS then
        (if Z.eqb (aclDestroyTensor_status c) ACL_SUCCESS then Done tt
         else Fatal (AclFault "aclDestroyTensor(acl_dst)"
                              (aclDestroyTensor_status c)),
         Ctx (trace s ++
                [EvDestroyTensor (acl_id a) (aclDestroyTensor_status a);
                 EvDestroyTensor (acl_id b) (aclDestroyTensor_status b);
                 EvDestroyTensor (acl_id c) (aclDestroyTensor_status c)])
             (device_mem s) (pool s) (next_id s))
      else
        (Fatal (AclFault "aclDestroyTensor(acl_src1)"
                         (aclDestroyTensor_status b)),
         Ctx (trace s ++
                [EvDestroyTensor (acl_id a) (aclDestroyTensor_status a);
                 EvDestroyTensor (acl_id b) (aclDestroyTensor_status b)])
             (device_mem s) (pool s) (next_id s))
    else
      (Fatal (AclFault "aclDestroyTensor(acl_src0)" (aclDestroyTensor_status a)),
       Ctx (trace s ++ [EvDestroyTensor (acl_id a) (aclDestroyTensor_status a)])
           (device_mem s) (pool s) (next_id s)).
Proof.
  unfold binary_exit. unfold bind at 1. rewrite destroy_checked.
  destruct (Z.eqb (aclDestroyTensor_status a) ACL_SUCCESS); [| reflexivity].
  unfold bind at 1. rewrite destroy_checked; simpl.
  destruct (Z.eqb (aclDestroyTensor_status b) ACL_SUCCESS).
  - rewrite destroy_checked; simpl. repeat rewrite <- app_assoc. reflexivity.
  - rewrite <- app_assoc. reflexivity.
Qed.

(** The two-phase call creates and destroys no handle, on any path. *)
Lemma call_handle_neutral op args :
  handle_neutral (GGML_CANN_CALL_ACLNN_OP op args).
Proof.
  intros s.
  destruct (op_GetWorkspaceSize op args) as [qst n] eqn:Hq.
  destruct (Z.eq_dec qst ACL_SUCCESS) as [-> | Hne].
  - destruct (op_kernel op args (device_mem s)) as [kst m'] eqn:Hk.
    destruct (N.eq_dec n 0) as [-> | Hn].
    + rewrite (call_no_workspace _ _ _ _ _ Hq Hk); simpl.
      unfold created, destroyed. rewrite !count_app. unfold count; simpl. lia.
    + destruct (pool_alloc (pool s) n) as [ptr p'] eqn:Ha.
      rewrite (call_with_workspace _ _ _ _ _ _ _ _ Hq Hn Ha Hk); simpl.
      unfold created, destroyed. rewrite !count_app. unfold count; simpl. lia.
  - rewrite (call_query_failed _ _ _ _ _ Hq Hne); simpl.
    unfold created, destroyed. rewrite !count_app. unfold count; simpl. lia.
Qed.

(** ** Workspace handling of the two-phase protocol *)

(** C3 (as the code has it): when the query succeeds and reports a
    nonzero workspace size, the call adds exactly four events to the
    trace, in this order: the query, the acquisition of the workspace,
    its release to the pool, and the submission of the operator, which
    is handed the address that has just been released.  The release
    happens when the block that acquired the workspace ends, hence
    before the submission and not after it. *)
Theorem workspace_released_before_submission op args s n ptr p' :
  op_GetWorkspaceSize op args = (ACL_SUCCESS, n) ->
  n <> 0%N ->
  pool_alloc (pool s) n = (ptr, p') ->
  trace (GGML_CANN_CALL_ACLNN_OP op args s).2
  = trace s ++ [EvGetWorkspaceSize (op_name op); EvPoolAlloc n ptr;
                EvPoolFree ptr; EvLaunch (op_name op) ptr n]
  /\ pool (GGML_CANN_CALL_ACLNN_OP op args s).2 = pool_free p' ptr.
Proof.
  intros Hq Hn Ha.
  destruct (op_kernel op args (device_mem s)) as [kst m'] eqn:Hk.
  rewrite (call_with_workspace _ _ _ _ _ _ _ _ Hq Hn Ha Hk).
  split; reflexivity.
Qed.

(** C4: after a successful query that reports [n] bytes, the events the
    call adds contain, for [n] nonzero, exactly one pool acquisition, of
    exactly [n] bytes, whose pointer is the workspace address of the one
    submission; and for [n] zero no pool acquisition at all, the one
    submission receiving the null pointer and size zero. *)
Theorem workspace_acquire_exact op args s n :
  op_GetWorkspaceSize op args = (ACL_SUCCESS, n) ->
  exists evs,
    trace (GGML_CANN_CALL_ACLNN_OP op args s).2 = trace s ++ evs
    /\ (n <> 0%N ->
        List.filter is_pool_alloc evs
        = [EvPoolAlloc n (pool_alloc (pool s) n).1]
        /\ List.filter is_launch evs
           = [EvLaunch (op_name op) (pool_alloc (pool s) n).1 n])
    /\ (n = 0%N ->
        List.filter is_pool_alloc evs = []
        /\ List.filter is_launch evs = [EvLaunch (op_name op) nullptr 0]).
Proof.
  intros Hq.
  destruct (op_kernel op args (device_mem s)) as [kst m'] eqn:Hk.
  destruct (N.eq_dec n 0) as [-> | Hn].
  - rewrite (call_no_workspace _ _ _ _ _ Hq Hk).
    eexists; split; [reflexivity |]. split; [intros Hc; congruence |].
    intros _. split; reflexivity.
  - destruct (pool_alloc (pool s) n) as [ptr p'] eqn:Ha.
    rewrite (call_with_workspace _ _ _ _ _ _ _ _ Hq Hn Ha Hk).
    eexists; split; [reflexivity |]. split; [| intros Hc; congruence].
    intros _. split; reflexivity.
Qed.

(** ** Status checking *)

(** C6: a non-success status of the workspace-size query ends the call
    in the fault that carries the checked statement and the status,
    after that single query and with nothing submitted; a non-success
    status of the submission ends it likewise, after one query and one
    submission; and a fault of the wrapped procedure is the outcome of
    the unary and of the binary template, which do nothing after it. *)
Theorem device_status_fatal :
  (forall op args s st n,
      op_GetWorkspaceSize op args = (st, n) ->
      st <> ACL_SUCCESS ->
      GGML_CANN_CALL_ACLNN_OP op args s
      = (Fatal (AclFault (stmt_query op) st),
         Ctx (trace s ++ [EvGetWorkspaceSize (op_name op)])
             (device_mem s) (pool s) (next_id s)))
  /\ (forall op args s n st m',
         op_GetWorkspaceSize op args = (ACL_SUCCESS, n) ->
         op_kernel op args (device_mem s) = (st, m') ->
         st <> ACL_SUCCESS ->
         (GGML_CANN_CALL_ACLNN_OP op args s).1
         = Fatal (AclFault (stmt_launch op) st)
         /\ exists evs,
             trace (GGML_CANN_CALL_ACLNN_OP op args s).2 = trace s ++ evs
             /\ count is_query evs = 1%nat /\ count is_launch evs = 1%nat)
  /\ (forall (unary_op : aclTensor -> aclTensor -> M unit)
             (dst src_t : ggml_tensor) s f s3,
         src dst !! 0%nat = Some src_t ->
         unary_op (handle_of src_t (next_id s))
                  (handle_of dst (S (next_id s))) (unary_entry s)
         = (Fatal f, s3) ->
         ggml_cann_unary_op unary_op dst s = (Fatal f, s3))
  /\ (forall (binary_op : aclTensor -> aclTensor -> aclTensor -> M unit)
             (dst src0 src1 : ggml_tensor) s h0 h1 hd s1 f s2,
         src dst !! 0%nat = Some src0 ->
         src dst !! 1%nat = Some src1 ->
         bcast_shape src0 src1 dst s = (Done (h0, h1, hd), s1) ->
         binary_op h0 h1 hd s1 = (Fatal f, s2) ->
         ggml_cann_binary_op binary_op dst s = (Fatal f, s2)).
Proof.
  split; [| split; [| split]].
  - intros op args s st n Hq Hst. apply (call_query_failed _ _ _ _ _ Hq Hst).
  - intros op args s n st m' Hq Hk Hst.
    assert (Hb : Z.eqb st ACL_SUCCESS = false) by (apply Z.eqb_neq; exact Hst).
    destruct (N.eq_dec n 0) as [-> | Hn].
    + rewrite (call_no_workspace _ _ _ _ _ Hq Hk), Hb; simpl.
      split; [reflexivity |]. eexists; split; [reflexivity |].
      split; reflexivity.
    + destruct (pool_alloc (pool s) n) as [ptr p'] eqn:Ha.
      rewrite (call_with_workspace _ _ _ _ _ _ _ _ Hq Hn Ha Hk), Hb; simpl.
      split; [reflexivity |]. eexists; split; [reflexivity |].
      split; reflexivity.
  - intros unary_op dst src_t s f s3 Hsrc Hop.
    rewrite (unary_op_run _ _ _ _ Hsrc), Hop. reflexivity.
  - intros binary_op dst src0 src1 s h0 h1 hd s1 f s2 Hs0 Hs1 Hb Hop.
    rewrite (binary_op_run _ _ _ _ _ Hs0 Hs1), Hb, Hop. reflexivity.
Qed.

(** ** Handle lifetimes *)

Lemma created_app (tr evs : list event) :
  created (tr ++ evs) = (created tr + created evs)%nat.
Proof. apply count_app. Qed.

Lemma destroyed_app (tr evs : list event) :
  destroyed (tr ++ evs) = (destroyed tr + destroyed evs)%nat.
Proof. apply count_app. Qed.

(** C2 (as the code has it): with a wrapped procedure that itself
    creates and destroys no handle, a call of the unary template that
    returns has created two handles and destroyed two, and a call of the
    binary template whose resolver succeeds and that returns has created
    three and destroyed three.  When the wrapped procedure fails, the
    call ends in that fault with its two (three) handles created and
    none of them destroyed: the destroy calls come after the wrapped
    procedure and are not reached. *)
Theorem handles_balanced_on_return :
  (forall (unary_op : aclTensor -> aclTensor -> M unit)
          (dst src_t : ggml_tensor) s,
      src dst !! 0%nat = Some src_t ->
      (forall a b, handle_neutral (unary_op a b)) ->
      let r := ggml_cann_unary_op unary_op dst s in
      let w := unary_op (handle_of src_t (next_id s))
                        (handle_of dst (S (next_id s))) (unary_entry s) in
      (r.1 = Done tt ->
       created (trace r.2) = (created (trace s) + 2)%nat
       /\ destroyed (trace r.2) = (destroyed (trace s) + 2)%nat)
      /\ (forall f, w.1 = Fatal f ->
          r.1 = Fatal f
          /\ created (trace r.2) = (created (trace s) + 2)%nat
          /\ destroyed (trace r.2) = destroyed (trace s)))
  /\ (forall (binary_op : aclTensor -> aclTensor -> aclTensor -> M unit)
             (dst src0 src1 : ggml_tensor) s h0 h1 hd s1,
         src dst !! 0%nat = Some src0 ->
         src dst !! 1%nat = Some src1 ->
         bcast_shape src0 src1 dst s = (Done (h0, h1, hd), s1) ->
         (forall a b c, handle_neutral (binary_op a b c)) ->
         let r := ggml_cann_binary_op binary_op dst s in
         let w := binary_op h0 h1 hd s1 in
         (r.1 = Done tt ->
          created (trace r.2) = (created (trace s) + 3)%nat
          /\ destroyed (trace r.2) = (destroyed (trace s) + 3)%nat)
         /\ (forall f, w.1 = Fatal f ->
             r.1 = Fatal f
             /\ created (trace r.2) = (created (trace s) + 3)%nat
             /\ destroyed (trace r.2) = destroyed (trace s))).
Proof.
  split.
  - intros unary_op dst src_t s Hsrc Hneu r w. subst r w.
    rewrite (unary_op_run _ _ _ _ Hsrc).
    set (a := handle_of src_t (next_id s)).
    set (b := handle_of dst (S (next_id s))).
    destruct (Hneu a b (unary_entry s)) as [Hc Hd].
    assert (Hc0 : created (trace (unary_entry s)) = (created (trace s) + 2)%nat)
      by (unfold unary_entry; simpl; rewrite created_app; reflexivity).
    assert (Hd0 : destroyed (trace (unary_entry s)) = destroyed (trace s))
      by (unfold unary_entry; simpl; rewrite destroyed_app;
          unfold destroyed, count; simpl; lia).
    destruct (unary_op a b (unary_entry s)) as [[[] | f0] s3]; simpl in *.
    + split; [| intros f Hf; discriminate].
      rewrite unary_exit_run.
      destruct (Z.eqb_spec (aclDestroyTensor_status a) ACL_SUCCESS) as [Ea | Ea];
        [| simpl; intros Hr; discriminate].
      destruct (Z.eqb_spec (aclDestroyTensor_status b) ACL_SUCCESS) as [Eb | Eb];
        [| simpl; intros Hr; discriminate].
      simpl. intros _. rewrite created_app, destroyed_app, Ea, Eb.
      unfold created at 2, destroyed at 2, count; simpl. lia.
    + split; [intros Hr; discriminate |].
      intros f Hf. injection Hf as ->. repeat split; congruence.
  - intros binary_op dst src0 src1 s h0 h1 hd s1 Hs0 Hs1 Hb Hneu r w.
    subst r w.
    rewrite (binary_op_run _ _ _ _ _ Hs0 Hs1), Hb.
    rewrite bcast_shape_run in Hb.
    destruct (bcast_handles src0 src1 dst (next_id s)) as [f0 | hs];
      [discriminate |].
    injection Hb as -> <-.
    destruct (Hneu h0 h1 hd (binary_entry s)) as [Hc Hd].
    assert (Hc0 : created (trace (binary_entry s)) = (created (trace s) + 3)%nat)
      by (unfold binary_entry; simpl; rewrite created_app; reflexivity).
    assert (Hd0 : destroyed (trace (binary_entry s)) = destroyed (trace s))
      by (unfold binary_entry; simpl; rewrite destroyed_app;
          unfold destroyed, count; simpl; lia).
    destruct (binary_op h0 h1 hd (binary_entry s)) as [[[] | f0] s3];
      simpl in *.
    + split; [| intros f Hf; discriminate].
      rewrite binary_exit_run.
      destruct (Z.eqb_spec (aclDestroyTensor_status h0) ACL_SUCCESS) as [Ea | Ea];
        [| simpl; intros Hr; discriminate].
      destruct (Z.eqb_spec (aclDestroyTensor_status h1) ACL_SUCCESS) as [Eb | Eb];
        [| simpl; intros Hr; discriminate].
      destruct (Z.eqb_spec (aclDestroyTensor_status hd) ACL_SUCCESS) as [Ec | Ec];
        [| simpl; intros Hr; discriminate].
      simpl. intros _. rewrite created_app, destroyed_app, Ea, Eb, Ec.
      unfold created at 2, destroyed at 2, count; simpl. lia.
    + split; [intros Hr; discriminate |].
      intros f Hf. injection Hf as ->. repeat split; congruence.
Qed.

(** C10: in both templates the status of every destroy call is checked.
    When the wrapped procedure has returned and the runtime answers the
    destruction of any of the handles of the call with a non-success
    status, the call does not return: it ends in the fault of a destroy
    statement carrying a non-success status of one of those handles. *)
Theorem destroy_status_checked :
  (forall (unary_op : aclTensor -> aclTensor -> M unit)
          (dst src_t : ggml_tensor) s s3 h,
      src dst !! 0%nat = Some src_t ->
      unary_op (handle_of src_t (next_id s))
               (handle_of dst (S (next_id s))) (unary_entry s)
      = (Done tt, s3) ->
      h ∈ [handle_of src_t (next_id s); handle_of dst (S (next_id s))] ->
      aclDestroyTensor_status h <> ACL_SUCCESS ->
      exists stmt h',
        h' ∈ [handle_of src_t (next_id s); handle_of dst (S (next_id s))]
        /\ aclDestroyTensor_status h' <> ACL_SUCCESS
        /\ (ggml_cann_unary_op unary_op dst s).1
           = Fatal (AclFault stmt (aclDestroyTensor_status h')))
  /\ (forall (binary_op : aclTensor -> aclTensor -> aclTensor -> M unit)
             (dst src0 src1 : ggml_tensor) s h0 h1 hd s1 s2 h,
         src dst !! 0%nat = Some src0 ->
         src dst !! 1%nat = Some src1 ->
         bcast_shape src0 src1 dst s = (Done (h0, h1, hd), s1) ->
         binary_op h0 h1 hd s1 = (Done tt, s2) ->
         h ∈ [h0; h1; hd] ->
         aclDestroyTensor_status h <> ACL_SUCCESS ->
         exists stmt h',
           h' ∈ [h0; h1; hd]
           /\ aclDestroyTensor_status h' <> ACL_SUCCESS
           /\ (ggml_cann_binary_op binary_op dst s).1
              = Fatal (AclFault stmt (aclDestroyTensor_status h'))).
Proof.
  split.
  - intros unary_op dst src_t s s3 h Hsrc Hop Hin Hst.
    rewrite (unary_op_run _ _ _ _ Hsrc), Hop, unary_exit_run.
    set (a := handle_of src_t (next_id s)) in *.
    set (b := handle_of dst (S (next_id s))) in *.
    destruct (Z.eqb_spec (aclDestroyTensor_status a) ACL_SUCCESS) as [Ea | Ea].
    + destruct (Z.eqb_spec (aclDestroyTensor_status b) ACL_SUCCESS) as [Eb | Eb].
      * exfalso. apply Hst.
        apply elem_of_cons in Hin as [-> | Hin]; [exact Ea |].
        apply list_elem_of_singleton in Hin as ->. exact Eb.
      * exists "aclDestroyTensor(acl_dst)"%string, b. simpl.
        split; [repeat constructor | split; [exact Eb | reflexivity]].
    + exists "aclDestroyTensor(acl_src)"%string, a. simpl.
      split; [repeat constructor | split; [exact Ea | reflexivity]].
  - intros binary_op dst src0 src1 s h0 h1 hd s1 s2 h Hs0 Hs1 Hb Hop Hin Hst.
    rewrite (binary_op_run _ _ _ _ _ Hs0 Hs1), Hb, Hop, binary_exit_run.
    destruct (Z.eqb_spec (aclDestroyTensor_status h0) ACL_SUCCESS) as [Ea | Ea].
    + destruct (Z.eqb_spec (aclDestroyTensor_status h1) ACL_SUCCESS) as [Eb | Eb].
      * destruct (Z.eqb_spec (aclDestroyTensor_status hd) ACL_SUCCESS)
          as [Ec | Ec].
        -- exfalso. apply Hst.
           apply elem_of_cons in Hin as [-> | Hin]; [exact Ea |].
           apply elem_of_cons in Hin as [-> | Hin]; [exact Eb |].
           apply list_elem_of_singleton in Hin as ->. exact Ec.
        -- exists "aclDestroyTensor(acl_dst)"%string, hd. simpl.
           split; [repeat constructor | split; [exact Ec | reflexivity]].
      * exists "aclDestroyTensor(acl_src1)"%string, h1. simpl.
        split; [repeat constructor | split; [exact Eb | reflexivity]].
    + exists "aclDestroyTensor(acl_src0)"%string, h0. simpl.
      split; [repeat constructor | split; [exact Ea | reflexivity]].
Qed.

(** ** Broadcast resolution: incompatible shapes *)

Lemma bcast_dim_incompatible (n0 b0 n1 b1 : Z) :
  n0 <> n1 -> n0 <> 1 -> n1 <> 1 -> bcast_dim n0 b0 n1 b1 = None.
Proof.
  intros Hne H0' H1'. unfold bcast_dim.
  destruct (Z.eqb_spec n0 n1); [contradiction |].
  destruct (Z.eqb_spec n0 1); [contradiction |].
  destruct (Z.eqb_spec n1 1); [contradiction | reflexivity].
Qed.

Lemma bcast_dim_fails (n0 b0 n1 b1 : Z) :
  bcast_dim n0 b0 n1 b1 = None -> n0 <> n1 /\ n0 <> 1 /\ n1 <> 1.
Proof.
  unfold bcast_dim.
  destruct (Z.eqb_spec n0 n1); [discriminate |].
  destruct (Z.eqb_spec n0 1); [discriminate |].
  destruct (Z.eqb_spec n1 1); [discriminate | auto].
Qed.

(** The plan fails at the first dimension that has no plan. *)
Lemma bcast_plan_incompatible (ne0 : list Z) :
  forall (nb0 ne1 nb1 : list Z) (k0 k : nat) (n0 n1 : Z),
    length nb0 = length ne0 ->
    length nb1 = length ne1 ->
    ne0 !! k = Some n0 ->
    ne1 !! k = Some n1 ->
    n0 <> n1 -> n0 <> 1 -> n1 <> 1 ->
    exists j m0 m1,
      (j <= k)%nat /\ ne0 !! j = Some m0 /\ ne1 !! j = Some m1
      /\ m0 <> m1 /\ m0 <> 1 /\ m1 <> 1
      /\ bcast_plan k0 ne0 nb0 ne1 nb1 = inl (BcastFault (k0 + j) m0 m1).
Proof.
  induction ne0 as [| a ne0 IH];
    intros nb0 ne1 nb1 k0 k n0 n1 Hl0 Hl1 Hk0 Hk1 Hne Hn0 Hn1.
  - destruct k; discriminate.
  - destruct ne1 as [| c ne1]; [destruct k; discriminate |].
    destruct nb0 as [| b0 nb0]; [discriminate |].
    destruct nb1 as [| b1 nb1]; [discriminate |].
    simpl in Hl0, Hl1. simpl bcast_plan.
    destruct (bcast_dim a b0 c b1) as [[d0 d1] |] eqn:Hd.
    + destruct k as [| k].
      * simpl in Hk0, Hk1. injection Hk0 as ->. injection Hk1 as ->.
        rewrite bcast_dim_incompatible in Hd by assumption. discriminate.
      * simpl in Hk0, Hk1.
        destruct (IH nb0 ne1 nb1 (S k0) k n0 n1) as
          (j & m0 & m1 & Hj & Hm0 & Hm1 & Hm & Hm0' & Hm1' & Hplan);
          try assumption; try lia.
        exists (S j), m0, m1. rewrite Hplan.
        repeat split; try assumption; try lia.
        replace (k0 + S j)%nat with (S k0 + j)%nat by lia. reflexivity.
    + apply bcast_dim_fails in Hd as (Hd0 & Hd1 & Hd2).
      exists 0%nat, a, c. replace (k0 + 0)%nat with k0 by lia.
      repeat split; try assumption; try lia.
Qed.

(** C5: when some dimension has different extents in the two operands
    and neither is 1, the resolver fails with the broadcast fault that
    names the first such dimension, and so does the binary template,
    whatever the wrapped procedure; the context is left as it was: no
    handle exists, nothing was queried, acquired or submitted. *)
Theorem incompatible_shapes_fail
    (binary_op : aclTensor -> aclTensor -> aclTensor -> M unit)
    (dst src0 src1 : ggml_tensor) s (k : nat) (n0 n1 : Z) :
  src dst !! 0%nat = Some src0 ->
  src dst !! 1%nat = Some src1 ->
  well_formed src0 ->
  well_formed src1 ->
  ne src0 !! k = Some n0 ->
  ne src1 !! k = Some n1 ->
  n0 <> n1 -> n0 <> 1 -> n1 <> 1 ->
  exists j m0 m1,
    (j <= k)%nat /\ ne src0 !! j = Some m0 /\ ne src1 !! j = Some m1
    /\ m0 <> m1 /\ m0 <> 1 /\ m1 <> 1
    /\ bcast_shape src0 src1 dst s = (Fatal (BcastFault j m0 m1), s)
    /\ ggml_cann_binary_op binary_op dst s = (Fatal (BcastFault j m0 m1), s).
Proof.
  intros Hs0 Hs1 Hw0 Hw1 Hk0 Hk1 Hne Hn0 Hn1.
  destruct (bcast_plan_incompatible (ne src0) (nb src0) (ne src1) (nb src1)
              0 k n0 n1 Hw0 Hw1 Hk0 Hk1 Hne Hn0 Hn1)
    as (j & m0 & m1 & Hj & Hm0 & Hm1 & Hm & Hm0' & Hm1' & Hplan).
  simpl in Hplan.
  assert (Hrun : bcast_shape src0 src1 dst s = (Fatal (BcastFault j m0 m1), s)).
  { rewrite bcast_shape_run. unfold bcast_handles, list_Z_eqb.
    rewrite bool_decide_eq_false_2.
    - rewrite Hplan. reflexivity.
    - intros Heq. rewrite Heq in Hk0. congruence. }
  exists j, m0, m1. repeat split; try assumption.
  rewrite (binary_op_run _ _ _ _ _ Hs0 Hs1), Hrun. reflexivity.
Qed.

(** ** Index spaces and addresses *)

Lemma elem_of_indices (shape idx : list Z) :
  idx ∈ indices shape <-> Forall2 (fun i n => 0 <= i < n) idx shape.
Proof.
  revert idx. induction shape as [| n shape IH]; intros idx; simpl.
  - rewrite list_elem_of_singleton. split.
    + intros ->. constructor.
    + intros Hf. inversion Hf. reflexivity.
  - rewrite list_elem_of_bind. split.
    + intros (rest & Hin & Hrest).
      apply list_elem_of_fmap in Hin as (i & -> & Hi).
      apply elem_of_seqZ in Hi.
      constructor; [lia | apply IH; exact Hrest].
    + intros Hf.
      apply Forall2_cons_inv_r in Hf as (i & rest & Hi & Hrest & ->).
      exists rest. split; [| apply IH; exact Hrest].
      apply list_elem_of_fmap. exists i.
      split; [reflexivity | apply elem_of_seqZ; lia].
Qed.

Lemma scaled_stride (sz i b : Z) :
  sz <> 0 -> b mod sz = 0 -> i * (b / sz) * sz = i * b.
Proof.
  intros Hsz Hb. pose proof (Z.div_mod b sz Hsz) as Hdm.
  rewrite Hb in Hdm. rewrite Hdm at 2. ring.
Qed.

Lemma dot_scaled (sz : Z) (idx : list Z) :
  forall strides : list Z,
    sz <> 0 ->
    Forall (fun b => b mod sz = 0) strides ->
    dot idx ((fun b => b / sz) <$> strides) * sz = dot idx strides.
Proof.
  induction idx as [| i idx IH]; intros [| b strides] Hsz Hall;
    try reflexivity.
  apply Forall_cons in Hall as [Hb Hall].
  rewrite fmap_cons. cbn [dot].
  rewrite Z.mul_add_distr_r, (IH strides Hsz Hall), scaled_stride by assumption.
  reflexivity.
Qed.

Lemma aligned_inv (t : ggml_tensor) :
  aligned t = true ->
  type_size t <> 0 /\ offs t mod type_size t = 0
  /\ Forall (fun b => b mod type_size t = 0) (nb t).
Proof.
  unfold aligned. rewrite !andb_true_iff, negb_true_iff.
  intros [[Hsz Ho] Hnb].
  split; [apply Z.eqb_neq; exact Hsz |].
  split; [apply Z.eqb_eq; exact Ho |].
  apply Forall_forall. intros b Hb. apply Z.eqb_eq.
  rewrite forallb_forall in Hnb. apply Hnb. apply list_elem_of_In. exact Hb.
Qed.

Lemma aligned_offset (t : ggml_tensor) :
  aligned t = true -> offs t / type_size t * type_size t = offs t.
Proof.
  intros Ht. apply aligned_inv in Ht as (Hsz & Ho & _).
  pose proof (Z.div_mod (offs t) (type_size t) Hsz) as Hdm.
  rewrite Ho in Hdm. lia.
Qed.

(** The handle of a descriptor addresses the elements of the
    descriptor. *)
Lemma handle_addr (t : ggml_tensor) (id : nat) (idx : list Z) :
  aligned t = true ->
  acl_addr (handle_of t id) idx = tensor_addr t idx.
Proof.
  intros Ht. unfold acl_addr, tensor_addr, handle_of; simpl.
  rewrite Z.mul_add_distr_r, aligned_offset by exact Ht.
  apply aligned_inv in Ht as (Hsz & _ & Hnb).
  rewrite dot_scaled by assumption. lia.
Qed.

(** ** Broadcast resolution: compatible shapes *)

(** What one dimension of a plan is, for each operand: the extent is
    that of the broadcast result, and the stride is the operand's own
    unless the operand has extent 1 there, in which case it is its own
    (and the result extent is 1) or zero. *)
Lemma bcast_dim_spec (n0 b0 n1 b1 : Z) (d0 d1 : Z * Z) :
  bcast_dim n0 b0 n1 b1 = Some (d0, d1) ->
  d0.1 = bcast_extent n0 n1 /\ d1.1 = bcast_extent n0 n1
  /\ ((d0.2 = b0 /\ (n0 = 1 -> bcast_extent n0 n1 = 1)) \/ (d0.2 = 0 /\ n0 = 1))
  /\ ((d1.2 = b1 /\ (n1 = 1 -> bcast_extent n0 n1 = 1)) \/ (d1.2 = 0 /\ n1 = 1)).
Proof.
  unfold bcast_dim, bcast_extent.
  destruct (Z.eqb_spec n0 n1) as [-> | Hne].
  - intros [= <- <-]; simpl.
    destruct (Z.eqb_spec n1 1); repeat split; auto.
  - destruct (Z.eqb_spec n0 1) as [-> | Hn0].
    + intros [= <- <-]; simpl. repeat split; auto.
    + destruct (Z.eqb_spec n1 1) as [-> | Hn1]; [| discriminate].
      intros [= <- <-]; simpl. repeat split; auto.
Qed.

Lemma bcast_dim_compatible (n0 b0 n1 b1 : Z) :
  bcast_compatible n0 n1 -> is_Some (bcast_dim n0 b0 n1 b1).
Proof.
  unfold bcast_compatible, bcast_dim. intros Hc.
  destruct (Z.eqb_spec n0 n1); [eexists; reflexivity |].
  destruct (Z.eqb_spec n0 1); [eexists; reflexivity |].
  destruct (Z.eqb_spec n1 1); [eexists; reflexivity |].
  destruct (Hc ltac:(assumption)); contradiction.
Qed.

Lemma bcast_plan_compatible (ne0 : list Z) :
  forall (nb0 ne1 nb1 : list Z) (k0 : nat),
    Forall2 bcast_compatible ne0 ne1 ->
    length nb0 = length ne0 ->
    length nb1 = length ne1 ->
    exists p0 p1, bcast_plan k0 ne0 nb0 ne1 nb1 = inr (p0, p1).
Proof.
  induction ne0 as [| n0 ne0 IH]; intros nb0 ne1 nb1 k0 Hc Hl0 Hl1.
  - inversion Hc; subst. destruct nb0, nb1; try discriminate.
    exists [], []. reflexivity.
  - apply Forall2_cons_inv_l in Hc as (n1 & ne1' & Hn & Hc & ->).
    destruct nb0 as [| b0 nb0]; [discriminate |].
    destruct nb1 as [| b1 nb1]; [discriminate |].
    simpl in Hl0, Hl1. simpl.
    destruct (bcast_dim_compatible n0 b0 n1 b1 Hn) as [[d0 d1] ->].
    destruct (IH nb0 ne1' nb1 (S k0) Hc) as (p0 & p1 & ->); try lia.
    exists (d0 :: p0), (d1 :: p1). reflexivity.
Qed.

(** Both operands of a plan get the shape of the broadcast result. *)
Lemma bcast_plan_shape (ne0 : list Z) :
  forall (nb0 ne1 nb1 : list Z) (k0 : nat) (p0 p1 : list (Z * Z)),
    bcast_plan k0 ne0 nb0 ne1 nb1 = inr (p0, p1) ->
    p0.*1 = zip_with bcast_extent ne0 ne1
    /\ p1.*1 = zip_with bcast_extent ne0 ne1.
Proof.
  induction ne0 as [| n0 ne0 IH]; intros nb0 ne1 nb1 k0 p0 p1 Hplan.
  - destruct nb0, ne1, nb1; try discriminate.
    injection Hplan as <- <-. split; reflexivity.
  - destruct nb0 as [| b0 nb0], ne1 as [| n1 ne1], nb1 as [| b1 nb1];
      try discriminate.
    simpl in Hplan.
    destruct (bcast_dim n0 b0 n1 b1) as [[d0 d1] |] eqn:Hd; [| discriminate].
    destruct (bcast_plan (S k0) ne0 nb0 ne1 nb1) as [f | [q0 q1]] eqn:Hrest;
      [discriminate |].
    injection Hplan as <- <-.
    apply bcast_dim_spec in Hd as (Hd0 & Hd1 & _).
    destruct (IH _ _ _ _ _ _ Hrest) as [Hq0 Hq1].
    rewrite !fmap_cons, Hd0, Hd1, Hq0, Hq1. split; reflexivity.
Qed.

(** On a mismatched dimension the operand of extent 1 is expanded: its
    plan has the extent of the other operand and stride zero. *)
Lemma bcast_plan_expands (ne0 : list Z) :
  forall (nb0 ne1 nb1 : list Z) (k0 : nat) (p0 p1 : list (Z * Z))
         (k : nat) (n0 n1 : Z),
    bcast_plan k0 ne0 nb0 ne1 nb1 = inr (p0, p1) ->
    ne0 !! k = Some n0 ->
    ne1 !! k = Some n1 ->
    n0 <> n1 ->
    (n0 = 1 -> p0 !! k = Some (n1, 0))
    /\ (n1 = 1 -> p1 !! k = Some (n0, 0)).
Proof.
  induction ne0 as [| a ne0 IH];
    intros nb0 ne1 nb1 k0 p0 p1 k n0 n1 Hplan Hk0 Hk1 Hne.
  - destruct k; discriminate.
  - destruct nb0 as [| b0 nb0], ne1 as [| c ne1], nb1 as [| b1 nb1];
      try discriminate.
    simpl in Hplan.
    destruct (bcast_dim a b0 c b1) as [[d0 d1] |] eqn:Hd; [| discriminate].
    destruct (bcast_plan (S k0) ne0 nb0 ne1 nb1) as [f | [q0 q1]] eqn:Hrest;
      [discriminate |].
    injection Hplan as <- <-.
    destruct k as [| k]; simpl in Hk0, Hk1.
    + injection Hk0 as ->. injection Hk1 as ->. simpl.
      unfold bcast_dim in Hd.
      destruct (Z.eqb_spec n0 n1); [contradiction |].
      destruct (Z.eqb_spec n0 1) as [-> | Hn0].
      * injection Hd as <- <-. split; [reflexivity | intros ->; congruence].
      * destruct (Z.eqb_spec n1 1) as [-> | Hn1]; [| discriminate].
        injection Hd as <- <-. split; [intros ->; congruence | reflexivity].
    + simpl. apply (IH _ _ _ _ _ _ _ _ _ Hrest Hk0 Hk1 Hne).
Qed.

(** Reading an operand through the strides of its plan is reading the
    operand itself at the broadcast index. *)
Lemma bcast_plan_addr (sz0 sz1 : Z) (ne0 : list Z) :
  forall (nb0 ne1 nb1 : list Z) (k0 : nat) (p0 p1 : list (Z * Z))
         (idx : list Z),
    bcast_plan k0 ne0 nb0 ne1 nb1 = inr (p0, p1) ->
    Forall2 (fun i n => 0 <= i < n) idx (zip_with bcast_extent ne0 ne1) ->
    (sz0 <> 0 -> Forall (fun b => b mod sz0 = 0) nb0 ->
     dot idx ((fun b => b / sz0) <$> p0.*2) * sz0
     = dot (bcast_index ne0 idx) nb0)
    /\ (sz1 <> 0 -> Forall (fun b => b mod sz1 = 0) nb1 ->
        dot idx ((fun b => b / sz1) <$> p1.*2) * sz1
        = dot (bcast_index ne1 idx) nb1).
Proof.
  induction ne0 as [| n0 ne0 IH]; intros nb0 ne1 nb1 k0 p0 p1 idx Hplan Hidx.
  - destruct nb0, ne1, nb1; try discriminate.
    injection Hplan as <- <-. inversion Hidx; subst.
    split; intros; reflexivity.
  - destruct nb0 as [| b0 nb0], ne1 as [| n1 ne1], nb1 as [| b1 nb1];
      try discriminate.
    simpl in Hplan.
    destruct (bcast_dim n0 b0 n1 b1) as [[d0 d1] |] eqn:Hd; [| discriminate].
    destruct (bcast_plan (S k0) ne0 nb0 ne1 nb1) as [f | [q0 q1]] eqn:Hrest;
      [discriminate |].
    injection Hplan as <- <-.
    simpl in Hidx.
    apply Forall2_cons_inv_r in Hidx as (i & idx' & Hi & Hidx' & ->).
    destruct (IH _ _ _ _ _ _ idx' Hrest Hidx') as [IH0 IH1].
    apply bcast_dim_spec in Hd as (_ & _ & Hd0 & Hd1).
    rewrite !fmap_cons. unfold bcast_index. cbn [zip_with dot].
    fold (bcast_index ne0 idx'). fold (bcast_index ne1 idx').
    split; intros Hsz Hall; apply Forall_cons in Hall as [Hb Hall];
      rewrite Z.mul_add_distr_r.
    + rewrite (IH0 Hsz Hall). f_equal.
      destruct Hd0 as [[-> Hone] | [-> ->]].
      * rewrite scaled_stride by assumption.
        destruct (Z.eqb_spec n0 1) as [E | E]; [| reflexivity].
        rewrite (Hone E) in Hi. replace i with 0 by lia. reflexivity.
      * simpl. rewrite Zdiv_0_l. lia.
    + rewrite (IH1 Hsz Hall). f_equal.
      destruct Hd1 as [[-> Hone] | [-> ->]].
      * rewrite scaled_stride by assumption.
        destruct (Z.eqb_spec n1 1) as [E | E]; [| reflexivity].
        rewrite (Hone E) in Hi. replace i with 0 by lia. reflexivity.
      * simpl. rewrite Zdiv_0_l. lia.
Qed.

(** Equal shapes plan for the descriptors as they are. *)
Lemma bcast_plan_same (ne0 : list Z) :
  forall (nb0 nb1 : list Z) (k0 : nat),
    length nb0 = length ne0 ->
    length nb1 = length ne0 ->
    bcast_plan k0 ne0 nb0 ne0 nb1 = inr (zip ne0 nb0, zip ne0 nb1).
Proof.
  induction ne0 as [| n ne0 IH]; intros nb0 nb1 k0 Hl0 Hl1.
  - destruct nb0, nb1; try discriminate. reflexivity.
  - destruct nb0 as [| b0 nb0], nb1 as [| b1 nb1]; try discriminate.
    simpl in Hl0, Hl1. simpl. unfold bcast_dim. rewrite Z.eqb_refl.
    rewrite IH by lia. reflexivity.
Qed.

Lemma virtual_handle_zip (t : ggml_tensor) (id : nat) :
  well_formed t -> virtual_handle t (zip (ne t) (nb t)) id = handle_of t id.
Proof.
  unfold well_formed, virtual_handle, handle_of. intros Hw.
  rewrite fst_zip, snd_zip by lia. reflexivity.
Qed.

(** The resolver as a plan, whichever branch it takes. *)
Lemma bcast_handles_plan (src0 src1 dst : ggml_tensor) (id : nat) :
  well_formed src0 ->
  well_formed src1 ->
  Forall2 bcast_compatible (ne src0) (ne src1) ->
  exists p0 p1,
    bcast_plan 0 (ne src0) (nb src0) (ne src1) (nb src1) = inr (p0, p1)
    /\ bcast_handles src0 src1 dst id
       = inr (virtual_handle src0 p0 id, virtual_handle src1 p1 (S id),
              handle_of dst (S (S id))).
Proof.
  intros Hw0 Hw1 Hc.
  destruct (bcast_plan_compatible _ (nb src0) _ (nb src1) 0%nat Hc Hw0 Hw1)
    as (p0 & p1 & Hplan).
  exists p0, p1. split; [exact Hplan |].
  unfold well_formed in Hw0, Hw1.
  unfold bcast_handles, list_Z_eqb. case_bool_decide as Heq.
  - rewrite <- Heq in Hplan, Hw1.
    rewrite bcast_plan_same in Hplan by assumption.
    injection Hplan as <- <-.
    rewrite virtual_handle_zip by exact Hw0.
    unfold virtual_handle, handle_of.
    rewrite fst_zip, snd_zip, Heq by lia. reflexivity.
  - rewrite Hplan. reflexivity.
Qed.

(** ** Stores of a kernel *)

Lemma store_all_cons (k : Z) (v : T) (kvs : list (Z * T)) (m : gmap Z T) :
  store_all ((k, v) :: kvs) m = store_all kvs (<[k := v]> m).
Proof. reflexivity. Qed.

Lemma store_all_other (kvs : list (Z * T)) :
  forall (m : gmap Z T) (a : Z),
    a ∉ kvs.*1 -> store_all kvs m !!! a = m !!! a.
Proof.
  induction kvs as [| [k v] kvs IH]; intros m a Ha; [reflexivity |].
  rewrite fmap_cons in Ha. apply not_elem_of_cons in Ha as [Hk Ha].
  rewrite store_all_cons, IH by exact Ha.
  apply lookup_total_insert_ne. simpl in Hk. congruence.
Qed.

(** A store to distinct addresses is read back as written. *)
Lemma store_all_lookup {I : Type} (g : I -> Z) (v : I -> T) (l : list I) :
  forall (m : gmap Z T) (j : I),
    NoDup (g <$> l) ->
    j ∈ l ->
    store_all ((fun i => (g i, v i)) <$> l) m !!! g j = v j.
Proof.
  induction l as [| x l IH]; intros m j Hnd Hj.
  - apply elem_of_nil in Hj. contradiction.
  - rewrite fmap_cons in Hnd. apply NoDup_cons in Hnd as [Hx Hnd].
    rewrite fmap_cons, store_all_cons.
    apply elem_of_cons in Hj as [-> | Hj].
    + rewrite store_all_other.
      * apply lookup_total_insert_eq.
      * rewrite <- list_fmap_compose. exact Hx.
    + apply IH; assumption.
Qed.

(** What is stored does not depend on the memory stored into. *)
Lemma store_all_agree (kvs : list (Z * T)) :
  forall (m1 m2 : gmap Z T) (a : Z),
    a ∈ kvs.*1 -> store_all kvs m1 !!! a = store_all kvs m2 !!! a.
Proof.
  induction kvs as [| [k v] kvs IH]; intros m1 m2 a Ha.
  - apply elem_of_nil in Ha. contradiction.
  - rewrite !store_all_cons.
    destruct (decide (a ∈ kvs.*1)) as [Hin | Hout].
    + apply IH. exact Hin.
    + rewrite fmap_cons in Ha. apply elem_of_cons in Ha as [-> | Ha];
        [| contradiction].
      rewrite !store_all_other by exact Hout. simpl.
      rewrite !lookup_total_insert_eq. reflexivity.
Qed.

Lemma elementwise2_run (f : T -> T -> T) (h0 h1 hd : aclTensor)
    (m : gmap Z T) :
  acl_shape h0 = acl_shape hd ->
  acl_shape h1 = acl_shape hd ->
  elementwise2 f [h0; h1; hd] m
  = (ACL_SUCCESS,
     store_all ((fun idx => (acl_addr hd idx,
                             f (m !!! acl_addr h0 idx) (m !!! acl_addr h1 idx)))
                  <$> indices (acl_shape hd)) m).
Proof.
  intros E0 E1. unfold elementwise2, list_Z_eqb.
  rewrite !bool_decide_eq_true_2 by assumption. reflexivity.
Qed.

Lemma elementwise1_run (f : T -> T) (h0 hd : aclTensor) (m : gmap Z T) :
  acl_shape h0 = acl_shape hd ->
  elementwise1 f [h0; hd] m
  = (ACL_SUCCESS,
     store_all ((fun idx => (acl_addr hd idx, f (m !!! acl_addr h0 idx)))
                  <$> indices (acl_shape hd)) m).
Proof.
  intros E0. unfold elementwise1, list_Z_eqb.
  rewrite bool_decide_eq_true_2 by assumption. reflexivity.
Qed.

(** A call whose query and kernel both succeed returns, leaving the
    memory the kernel computed. *)
Lemma call_succeeds op args s (m' : gmap Z T) :
  (op_GetWorkspaceSize op args).1 = ACL_SUCCESS ->
  op_kernel op args (device_mem s) = (ACL_SUCCESS, m') ->
  exists s',
    GGML_CANN_CALL_ACLNN_OP op args s = (Done tt, s')
    /\ device_mem s' = m'.
Proof.
  intros Hq Hk.
  destruct (op_GetWorkspaceSize op args) as [qst n] eqn:Hq'.
  simpl in Hq; subst qst.
  destruct (N.eq_dec n 0) as [-> | Hn].
  - rewrite (call_no_workspace _ _ _ _ _ Hq' Hk); simpl.
    eexists; split; reflexivity.
  - destruct (pool_alloc (pool s) n) as [ptr p'] eqn:Ha.
    rewrite (call_with_workspace _ _ _ _ _ _ _ _ Hq' Hn Ha Hk); simpl.
    eexists; split; reflexivity.
Qed.

(** ** Broadcast of a binary operation *)

Lemma virtual_handle_addr (t : ggml_tensor) (p : list (Z * Z)) (id : nat)
    (idx idx' : list Z) :
  aligned t = true ->
  dot idx ((fun b => b / type_size t) <$> p.*2) * type_size t
  = dot idx' (nb t) ->
  acl_addr (virtual_handle t p id) idx = tensor_addr t idx'.
Proof.
  intros Ht Hdot. unfold acl_addr, tensor_addr, virtual_handle; simpl.
  rewrite Z.mul_add_distr_r, aligned_offset, Hdot by exact Ht. lia.
Qed.

(** C1: for two operands whose shapes differ only in dimensions where
    one of them has extent 1, the resolver returns handles such that, on
    every mismatched dimension, the handle of the operand of extent 1
    has the extent of the other operand and stride zero; and the binary
    template with a pure elementwise kernel returns with the destination
    holding, at every index of the broadcast shape, the kernel's function
    of the two operands read at the broadcast indices.  The descriptors
    carry one stride per extent, strides and offsets are whole numbers
    of elements, the destination has the broadcast shape and distinct
    addresses for distinct indices, and the device calls succeed. *)
Theorem binary_op_broadcast (f : T -> T -> T) (name : string)
    (query : list aclTensor -> aclError * N)
    (dst src0 src1 : ggml_tensor) s :
  src dst !! 0%nat = Some src0 ->
  src dst !! 1%nat = Some src1 ->
  well_formed src0 ->
  well_formed src1 ->
  Forall2 bcast_compatible (ne src0) (ne src1) ->
  ne dst = zip_with bcast_extent (ne src0) (ne src1) ->
  aligned src0 = true ->
  aligned src1 = true ->
  aligned dst = true ->
  NoDup (tensor_addr dst <$> indices (ne dst)) ->
  (forall args, (query args).1 = ACL_SUCCESS) ->
  (forall h, aclDestroyTensor_status h = ACL_SUCCESS) ->
  exists h0 h1 hd s1 s',
    bcast_shape src0 src1 dst s = (Done (h0, h1, hd), s1)
    /\ (forall (k : nat) (n0 n1 : Z),
          ne src0 !! k = Some n0 ->
          ne src1 !! k = Some n1 ->
          n0 <> n1 ->
          (n0 = 1 ->
           acl_shape h0 !! k = Some n1 /\ acl_strides h0 !! k = Some 0)
          /\ (n1 = 1 ->
              acl_shape h1 !! k = Some n0 /\ acl_strides h1 !! k = Some 0))
    /\ ggml_cann_binary_op
         (aclnn_binary (AclnnOp name query (elementwise2 f))) dst s
       = (Done tt, s')
    /\ forall idx,
        idx ∈ indices (ne dst) ->
        device_mem s' !!! tensor_addr dst idx
        = f (device_mem s !!! tensor_addr src0 (bcast_index (ne src0) idx))
            (device_mem s !!! tensor_addr src1 (bcast_index (ne src1) idx)).
Proof.
  intros Hs0 Hs1 Hw0 Hw1 Hc Hshape Ha0 Ha1 Had Hnd Hq Hdestroy.
  destruct (bcast_handles_plan src0 src1 dst (next_id s) Hw0 Hw1 Hc)
    as (p0 & p1 & Hplan & Hh).
  destruct (bcast_plan_shape _ _ _ _ _ _ _ Hplan) as [Hp0 Hp1].
  set (h0 := virtual_handle src0 p0 (next_id s)) in *.
  set (h1 := virtual_handle src1 p1 (S (next_id s))) in *.
  set (hd := handle_of dst (S (S (next_id s)))) in *.
  assert (Hb : bcast_shape src0 src1 dst s = (Done (h0, h1, hd), binary_entry s))
    by (rewrite bcast_shape_run, Hh; reflexivity).
  assert (E0 : acl_shape h0 = acl_shape hd)
    by (unfold h0, hd; simpl; congruence).
  assert (E1 : acl_shape h1 = acl_shape hd)
    by (unfold h1, hd; simpl; congruence).
  set (op := AclnnOp name query (elementwise2 f)).
  destruct (call_succeeds op [h0; h1; hd] (binary_entry s) _
              (Hq [h0; h1; hd])
              (elementwise2_run f h0 h1 hd (device_mem s) E0 E1))
    as (s2 & Hrun & Hmem).
  exists h0, h1, hd, (binary_entry s).
  exists (Ctx (trace s2 ++
                 [EvDestroyTensor (acl_id h0) (aclDestroyTensor_status h0);
                  EvDestroyTensor (acl_id h1) (aclDestroyTensor_status h1);
                  EvDestroyTensor (acl_id hd) (aclDestroyTensor_status hd)])
              (device_mem s2) (pool s2) (next_id s2)).
  split; [exact Hb |]. split; [| split].
  - intros k n0 n1 Hk0 Hk1 Hne.
    destruct (bcast_plan_expands _ _ _ _ _ _ _ k n0 n1 Hplan Hk0 Hk1 Hne)
      as [Hx0 Hx1].
    split; intros Hone.
    + unfold h0, virtual_handle; simpl.
      rewrite !list_lookup_fmap, (Hx0 Hone); simpl.
      rewrite Zdiv_0_l. split; reflexivity.
    + unfold h1, virtual_handle; simpl.
      rewrite !list_lookup_fmap, (Hx1 Hone); simpl.
      rewrite Zdiv_0_l. split; reflexivity.
  - rewrite (binary_op_run _ _ _ _ _ Hs0 Hs1), Hb.
    unfold aclnn_binary at 1. fold op. rewrite Hrun, binary_exit_run.
    rewrite !Hdestroy. reflexivity.
  - intros idx Hidx. simpl. rewrite Hmem.
    rewrite <- (handle_addr dst (S (S (next_id s))) idx Had). fold hd.
    assert (Hsh : acl_shape hd = ne dst) by reflexivity. rewrite Hsh.
    rewrite (store_all_lookup (acl_addr hd)
               (fun i => f (device_mem s !!! acl_addr h0 i)
                           (device_mem s !!! acl_addr h1 i))).
    + apply elem_of_indices in Hidx. rewrite Hshape in Hidx.
      destruct (bcast_plan_addr (type_size src0) (type_size src1)
                  _ _ _ _ _ _ _ idx Hplan Hidx) as [Hd0 Hd1].
      pose proof (aligned_inv _ Ha0) as (Hz0 & _ & Hn0).
      pose proof (aligned_inv _ Ha1) as (Hz1 & _ & Hn1).
      unfold h0, h1.
      rewrite (virtual_handle_addr src0 p0 _ idx _ Ha0 (Hd0 Hz0 Hn0)).
      rewrite (virtual_handle_addr src1 p1 _ idx _ Ha1 (Hd1 Hz1 Hn1)).
      reflexivity.
    + erewrite list_fmap_ext; [exact Hnd |].
      intros i x Hix. apply handle_addr. exact Had.
    + exact Hidx.
Qed.

(** ** Pure elementwise unary operators *)

(** What the unary pattern computes with a pure elementwise kernel. *)
Lemma unary_call_run (f : T -> T) (name : string)
    (query : list aclTensor -> aclError * N)
    (dst src_t : ggml_tensor) s :
  src dst !! 0%nat = Some src_t ->
  ne src_t = ne dst ->
  aligned src_t = true ->
  aligned dst = true ->
  (forall args, (query args).1 = ACL_SUCCESS) ->
  (forall h, aclDestroyTensor_status h = ACL_SUCCESS) ->
  exists s',
    GGML_CANN_CALL_UNARY_OP (AclnnOp name query (elementwise1 f)) dst s
    = (Done tt, s')
    /\ device_mem s'
       = store_all ((fun idx => (tensor_addr dst idx,
                                 f (device_mem s !!! tensor_addr src_t idx)))
                      <$> indices (ne dst)) (device_mem s).
Proof.
  intros Hsrc Hshape Has Had Hq Hdestroy.
  set (op := AclnnOp name query (elementwise1 f)).
  set (a := handle_of src_t (next_id s)).
  set (b := handle_of dst (S (next_id s))).
  assert (E : acl_shape a = acl_shape b) by exact Hshape.
  destruct (call_succeeds op [a; b] (unary_entry s) _ (Hq [a; b])
              (elementwise1_run f a b (device_mem s) E))
    as (s2 & Hrun & Hmem).
  exists (Ctx (trace s2 ++
                 [EvDestroyTensor (acl_id a) (aclDestroyTensor_status a);
                  EvDestroyTensor (acl_id b) (aclDestroyTensor_status b)])
              (device_mem s2) (pool s2) (next_id s2)).
  split.
  - unfold GGML_CANN_CALL_UNARY_OP.
    rewrite (unary_op_run _ _ _ _ Hsrc). fold a b op.
    rewrite Hrun, unary_exit_run, !Hdestroy. reflexivity.
  - simpl. rewrite Hmem. f_equal.
    apply list_fmap_ext. intros i idx Hi.
    unfold a, b. rewrite !handle_addr by assumption. reflexivity.
Qed.

(** Two runs of a pure elementwise unary operator on inputs of equal
    contents return with outputs of equal contents. *)
Lemma unary_outputs_agree (f : T -> T) (name : string)
    (query : list aclTensor -> aclError * N)
    (dst src_t : ggml_tensor) s1 s2 :
  src dst !! 0%nat = Some src_t ->
  ne src_t = ne dst ->
  aligned src_t = true ->
  aligned dst = true ->
  (forall args, (query args).1 = ACL_SUCCESS) ->
  (forall h, aclDestroyTensor_status h = ACL_SUCCESS) ->
  (forall idx, idx ∈ indices (ne src_t) ->
     device_mem s1 !!! tensor_addr src_t idx
     = device_mem s2 !!! tensor_addr src_t idx) ->
  exists s1' s2',
    GGML_CANN_CALL_UNARY_OP (AclnnOp name query (elementwise1 f)) dst s1
    = (Done tt, s1')
    /\ GGML_CANN_CALL_UNARY_OP (AclnnOp name query (elementwise1 f)) dst s2
       = (Done tt, s2')
    /\ forall idx, idx ∈ indices (ne dst) ->
         device_mem s1' !!! tensor_addr dst idx
         = device_mem s2' !!! tensor_addr dst idx.
Proof.
  intros Hsrc Hshape Has Had Hq Hdestroy Hsame.
  destruct (unary_call_run f name query dst src_t s1) as (s1' & Hr1 & Hm1);
    try assumption.
  destruct (unary_call_run f name query dst src_t s2) as (s2' & Hr2 & Hm2);
    try assumption.
  exists s1', s2'. split; [exact Hr1 |]. split; [exact Hr2 |].
  intros idx Hidx. rewrite Hm1, Hm2.
  replace ((fun i => (tensor_addr dst i,
                      f (device_mem s1 !!! tensor_addr src_t i)))
             <$> indices (ne dst))
    with ((fun i => (tensor_addr dst i,
                     f (device_mem s2 !!! tensor_addr src_t i)))
            <$> indices (ne dst)).
  - apply store_all_agree.
    rewrite <- list_fmap_compose.
    apply (list_elem_of_fmap_2 (tensor_addr dst)). exact Hidx.
  - apply Forall_fmap_ext_1, Forall_forall. intros i Hi.
    rewrite Hsame; [reflexivity |]. rewrite Hshape. exact Hi.
Qed.

(** C8: a pure elementwise unary operator under the unary template is
    repeatable.  From any two contexts in which the source descriptor
    has the same contents, the two invocations return and leave the same
    contents in the destination descriptor; in particular, when the
    destination does not overlap the source, invoking the operator a
    second time right after the first leaves the destination as the
    first invocation left it. *)
Theorem unary_op_repeatable (f : T -> T) (name : string)
    (query : list aclTensor -> aclError * N)
    (dst src_t : ggml_tensor) :
  src dst !! 0%nat = Some src_t ->
  ne src_t = ne dst ->
  aligned src_t = true ->
  aligned dst = true ->
  (forall args, (query args).1 = ACL_SUCCESS) ->
  (forall h, aclDestroyTensor_status h = ACL_SUCCESS) ->
  let run := GGML_CANN_CALL_UNARY_OP (AclnnOp name query (elementwise1 f)) dst in
  (forall s1 s2,
      (forall idx, idx ∈ indices (ne src_t) ->
         device_mem s1 !!! tensor_addr src_t idx
         = device_mem s2 !!! tensor_addr src_t idx) ->
      exists s1' s2',
        run s1 = (Done tt, s1') /\ run s2 = (Done tt, s2')
        /\ forall idx, idx ∈ indices (ne dst) ->
             device_mem s1' !!! tensor_addr dst idx
             = device_mem s2' !!! tensor_addr dst idx)
  /\ (forall s,
         (forall i j, i ∈ indices (ne src_t) -> j ∈ indices (ne dst) ->
            tensor_addr src_t i <> tensor_addr dst j) ->
         exists s' s'',
           run s = (Done tt, s') /\ run s' = (Done tt, s'')
           /\ forall idx, idx ∈ indices (ne dst) ->
                device_mem s'' !!! tensor_addr dst idx
                = device_mem s' !!! tensor_addr dst idx).
Proof.
  intros Hsrc Hshape Has Had Hq Hdestroy run. split.
  - intros s1 s2 Hsame.
    apply (unary_outputs_agree f name query dst src_t s1 s2); assumption.
  - intros s Hdisj.
    destruct (unary_call_run f name query dst src_t s) as (s' & Hr & Hm);
      try assumption.
    destruct (unary_outputs_agree f name query dst src_t s' s)
      as (s'' & s0 & Hr2 & Hr0 & Hout); try assumption.
    + intros idx Hidx. rewrite Hm. apply store_all_other.
      rewrite <- list_fmap_compose. intros Hin.
      apply list_elem_of_fmap in Hin as (j & Hj & Hjin).
      exact (Hdisj idx j Hidx Hjin Hj).
    + exists s', s''. split; [exact Hr |]. split; [exact Hr2 |].
      intros idx Hidx. rewrite (Hout idx Hidx).
      unfold run in Hr. rewrite Hr in Hr0. injection Hr0 as <-. reflexivity.
Qed.

(** With distinct destination addresses, the unary pattern leaves the
    kernel's function of each source element at the same index of the
    destination. *)
Lemma unary_call_elementwise (f : T -> T) (name : string)
    (query : list aclTensor -> aclError * N)
    (dst src_t : ggml_tensor) s :
  src dst !! 0%nat = Some src_t ->
  ne src_t = ne dst ->
  aligned src_t = true ->
  aligned dst = true ->
  NoDup (tensor_addr dst <$> indices (ne dst)) ->
  (forall args, (query args).1 = ACL_SUCCESS) ->
  (forall h, aclDestroyTensor_status h = ACL_SUCCESS) ->
  exists s',
    GGML_CANN_CALL_UNARY_OP (AclnnOp name query (elementwise1 f)) dst s
    = (Done tt, s')
    /\ forall idx, idx ∈ indices (ne dst) ->
         device_mem s' !!! tensor_addr dst idx
         = f (device_mem s !!! tensor_addr src_t idx).
Proof.
  intros Hsrc Hshape Has Had Hnd Hq Hdestroy.
  destruct (unary_call_run f name query dst src_t s) as (s' & Hr & Hm);
    try assumption.
  exists s'. split; [exact Hr |].
  intros idx Hidx. rewrite Hm.
  apply (store_all_lookup (tensor_addr dst)
           (fun i => f (device_mem s !!! tensor_addr src_t i)));
    assumption.
Qed.

End Theory.

(** * The clamp operator and the scenarios *)

(** C7: the clamp entry returns with every element of the destination
    equal to max(min(x, max), min) of the element of the source at the
    same index, [min] and [max] being the first two parameters of the
    destination node. *)
Theorem clamp_elementwise {P : Type} `{Hpool : cann_pool P}
    `{Hrt : acl_runtime}
    (query : list aclTensor -> aclError * N)
    (dst src_t : @ggml_tensor Q) (s : @cann_context Q P) :
  src dst !! 0%nat = Some src_t ->
  ne src_t = ne dst ->
  aligned src_t = true ->
  aligned dst = true ->
  NoDup (tensor_addr dst <$> indices (ne dst)) ->
  (forall args, (query args).1 = ACL_SUCCESS) ->
  (forall h, aclDestroyTensor_status h = ACL_SUCCESS) ->
  exists s',
    ggml_cann_clamp query dst s = (Done tt, s')
    /\ forall idx, idx ∈ indices (ne dst) ->
         device_mem s' !!! tensor_addr dst idx
         = Qmax (Qmin (device_mem s !!! tensor_addr src_t idx)
                      (op_params dst !!! 1%nat))
                (op_params dst !!! 0%nat).
Proof.
  intros Hsrc Hshape Has Had Hnd Hq Hdestroy.
  unfold ggml_cann_clamp.
  apply (unary_call_elementwise
           (clamp_value (op_params dst !!! 0%nat) (op_params dst !!! 1%nat))
           "Clamp" query dst src_t s); assumption.
Qed.

(** ** Scenario: add of shapes (2,3) and (2,1) *)

(** The whole call, evaluated: three handles, the two-phase call with
    its workspace, three destructions, and the sums in the destination. *)
Example add_scenario_run :
  let r := ggml_cann_binary_op
             (aclnn_binary (AclnnOp "Add" query32 (elementwise2 Z.add)))
             t_add (ctx0 mem_add) in
  r.1 = Done tt
  /\ trace r.2
     = [EvCreateTensor 0; EvCreateTensor 1; EvCreateTensor 2;
        EvGetWorkspaceSize "Add"; EvPoolAlloc 32 4096; EvPoolFree 4096;
        EvLaunch "Add" 4096 32;
        EvDestroyTensor 0 0; EvDestroyTensor 1 0; EvDestroyTensor 2 0]
  /\ contents (device_mem r.2) t_add = [11; 12; 13; 24; 25; 26]
  /\ contents (device_mem r.2) t_src0 = [1; 2; 3; 4; 5; 6].
Proof. vm_compute. repeat split. Qed.

(** src0 = [[1,2,3],[4,5,6]] plus src1 = [[10],[20]] returns with
    dst = [[11,12,13],[24,25,26]], of shape (2,3). *)
Lemma binary_op_broadcast_witness :
  (well_formed t_src0 /\ well_formed t_src1
   /\ Forall2 bcast_compatible (ne t_src0) (ne t_src1)
   /\ ne t_add = zip_with bcast_extent (ne t_src0) (ne t_src1)
   /\ NoDup (tensor_addr t_add <$> indices (ne t_add)))
  /\ exists s',
      ggml_cann_binary_op
        (aclnn_binary (AclnnOp "Add" query32 (elementwise2 Z.add)))
        t_add (ctx0 mem_add)
      = (Done tt, s')
      /\ contents (device_mem s') t_add = [11; 12; 13; 24; 25; 26].
Proof.
  assert (Hc : Forall2 bcast_compatible (ne t_src0) (ne t_src1))
    by (repeat constructor; unfold bcast_compatible; lia).
  assert (Hnd : NoDup (tensor_addr t_add <$> indices (ne t_add)))
    by (apply (bool_decide_unpack _); vm_compute; exact I).
  split; [repeat split; [exact Hc | exact Hnd] |].
  destruct (binary_op_broadcast (Hrt := healthy_runtime)
              Z.add "Add" query32 t_add t_src0 t_src1
              (ctx0 mem_add) eq_refl eq_refl eq_refl eq_refl Hc eq_refl
              eq_refl eq_refl eq_refl Hnd
              (fun _ => eq_refl) (fun _ => eq_refl))
    as (h0 & h1 & hd & s1 & s' & _ & _ & Hrun & Hout).
  exists s'. split; [exact Hrun |].
  unfold contents.
  change (indices (ne t_add))
    with [[0;0;0;0]; [1;0;0;0]; [2;0;0;0]; [0;1;0;0]; [1;1;0;0]; [2;1;0;0]]
    in *.
  cbn [fmap list_fmap].
  rewrite !Hout by (repeat constructor).
  vm_compute. reflexivity.
Defined.

(** ** Scenario: add of shapes (2,3) and (2,4) *)

(** The add fails with the broadcast fault of dimension 0 (extents 3
    and 4) and leaves the context untouched. *)
Lemma incompatible_shapes_fail_witness :
  (ne t_src0 !! 0%nat = Some 3 /\ ne t_wide !! 0%nat = Some 4)
  /\ ggml_cann_binary_op
       (aclnn_binary (AclnnOp "Add" query32 (elementwise2 Z.add)))
       t_add_wide (ctx0 mem_add)
     = (Fatal (BcastFault 0 3 4), ctx0 mem_add).
Proof.
  split; [split; reflexivity |].
  destruct (incompatible_shapes_fail (Hrt := healthy_runtime)
              (aclnn_binary (AclnnOp "Add" query32 (elementwise2 Z.add)))
              t_add_wide t_src0 t_wide (ctx0 mem_add) 0%nat 3 4
              eq_refl eq_refl eq_refl eq_refl eq_refl eq_refl
              ltac:(discriminate) ltac:(discriminate) ltac:(discriminate))
    as (j & m0 & m1 & Hj & Hm0 & Hm1 & _ & _ & _ & _ & Hrun).
  assert (j = 0%nat) as -> by lia.
  injection Hm0 as <-. injection Hm1 as <-. exact Hrun.
Defined.

(** ** Scenario: clamp of [-1, 0.5, 2] to [0, 1] *)

Lemma clamp_elementwise_witness :
  (src q_clamp !! 0%nat = Some q_x
   /\ NoDup (tensor_addr q_clamp <$> indices (ne q_clamp)))
  /\ exists s',
      ggml_cann_clamp query32 q_clamp (ctx0 mem_q) = (Done tt, s')
      /\ contents (device_mem s') q_clamp = [0%Q; (1#2)%Q; 1%Q].
Proof.
  assert (Hnd : NoDup (tensor_addr q_clamp <$> indices (ne q_clamp)))
    by (apply (bool_decide_unpack _); vm_compute; exact I).
  split; [split; [reflexivity | exact Hnd] |].
  destruct (clamp_elementwise (Hrt := healthy_runtime) query32 q_clamp q_x
              (ctx0 mem_q) eq_refl eq_refl eq_refl eq_refl Hnd
              (fun _ => eq_refl) (fun _ => eq_refl))
    as (s' & Hrun & Hout).
  exists s'. split; [exact Hrun |].
  unfold contents.
  change (indices (ne q_clamp)) with [[0;0;0;0]; [1;0;0;0]; [2;0;0;0]] in *.
  cbn [fmap list_fmap].
  rewrite !Hout by (repeat constructor).
  vm_compute. reflexivity.
Defined.

(** ** Scenario: a unary operator with a 32-byte workspace *)

(** The workspace is released to the pool before the operator is
    submitted: in the trace of the call the release is event 2 and the
    submission is event 3. *)
Lemma release_after_submission_counterexample :
  trace (GGML_CANN_CALL_ACLNN_OP op_abs abs_args (ctx0 mem_x)).2
  = [EvGetWorkspaceSize "Abs"; EvPoolAlloc 32 4096; EvPoolFree 4096;
     EvLaunch "Abs" 4096 32]
  /\ ~ released_after_submission
        (trace (GGML_CANN_CALL_ACLNN_OP op_abs abs_args (ctx0 mem_x)).2).
Proof.
  split; [vm_compute; reflexivity |].
  intros Hc.
  specialize (Hc 2%nat 3%nat 4096 "Abs"%string 4096 32%N eq_refl eq_refl).
  lia.
Qed.

Lemma workspace_released_before_submission_witness :
  (op_GetWorkspaceSize op_abs abs_args = (ACL_SUCCESS, 32%N)
   /\ pool_alloc (pool (ctx0 mem_x)) 32 = (4096, 4128))
  /\ trace (GGML_CANN_CALL_ACLNN_OP op_abs abs_args (ctx0 mem_x)).2
     = [EvGetWorkspaceSize "Abs"; EvPoolAlloc 32 4096; EvPoolFree 4096;
        EvLaunch "Abs" 4096 32].
Proof.
  split; [split; reflexivity |].
  exact (proj1 (workspace_released_before_submission op_abs abs_args
                  (ctx0 mem_x) 32%N 4096 4128 eq_refl ltac:(discriminate)
                  eq_refl)).
Defined.

(** Without a workspace the pool is not touched and the operator is
    submitted with the null pointer and size zero. *)
Example no_workspace_run :
  trace (GGML_CANN_CALL_ACLNN_OP op_abs_no_workspace abs_args (ctx0 mem_x)).2
  = [EvGetWorkspaceSize "Abs"; EvLaunch "Abs" nullptr 0].
Proof. vm_compute. reflexivity. Qed.

Lemma workspace_acquire_exact_witness :
  op_GetWorkspaceSize op_abs abs_args = (ACL_SUCCESS, 32%N)
  /\ exists evs,
      trace (GGML_CANN_CALL_ACLNN_OP op_abs abs_args (ctx0 mem_x)).2
      = trace (ctx0 mem_x) ++ evs
      /\ List.filter is_pool_alloc evs = [EvPoolAlloc 32 4096]
      /\ List.filter is_launch evs = [EvLaunch "Abs" 4096 32].
Proof.
  split; [reflexivity |].
  destruct (workspace_acquire_exact op_abs abs_args (ctx0 mem_x) 32%N eq_refl)
    as (evs & Htr & Hnz & _).
  exists evs. split; [exact Htr |].
  exact (Hnz ltac:(discriminate)).
Defined.

(** ** Scenario: failing device calls *)

Lemma device_status_fatal_witness :
  GGML_CANN_CALL_ACLNN_OP op_abs_query_fails abs_args (ctx0 mem_x)
  = (Fatal (AclFault "aclnnAbsGetWorkspaceSize" 1),
     Ctx [EvGetWorkspaceSize "Abs"] mem_x 4096 0)
  /\ (GGML_CANN_CALL_ACLNN_OP op_abs_launch_fails abs_args (ctx0 mem_x)).1
     = Fatal (AclFault "aclnnAbs" 1)
  /\ (GGML_CANN_CALL_UNARY_OP op_abs_query_fails t_y (ctx0 mem_x)).1
     = Fatal (AclFault "aclnnAbsGetWorkspaceSize" 1).
Proof.
  destruct (device_status_fatal (T := Z) (P := Z) (Hrt := healthy_runtime))
    as (Hquery & Hlaunch & Hunary & _).
  split; [| split].
  - exact (Hquery op_abs_query_fails abs_args (ctx0 mem_x) 1 0%N eq_refl
             ltac:(discriminate)).
  - exact (proj1 (Hlaunch op_abs_launch_fails abs_args (ctx0 mem_x) 32%N 1
                    mem_x eq_refl eq_refl ltac:(discriminate))).
  - unfold GGML_CANN_CALL_UNARY_OP.
    rewrite (Hunary _ t_y t_x (ctx0 mem_x) _ _ eq_refl
               (Hquery op_abs_query_fails abs_args (unary_entry (ctx0 mem_x))
                  1 0%N eq_refl ltac:(discriminate))).
    reflexivity.
Defined.

(** The wrapped operator fails in its query: the unary template ends in
    that fault with two handles created and none destroyed. *)
Lemma handle_leak_counterexample :
  (GGML_CANN_CALL_UNARY_OP op_abs_query_fails t_y (ctx0 mem_x)).1
  = Fatal (AclFault "aclnnAbsGetWorkspaceSize" 1)
  /\ created (trace (GGML_CANN_CALL_UNARY_OP op_abs_query_fails t_y
                       (ctx0 mem_x)).2) = 2%nat
  /\ destroyed (trace (GGML_CANN_CALL_UNARY_OP op_abs_query_fails t_y
                         (ctx0 mem_x)).2) = 0%nat
  /\ created (trace (GGML_CANN_CALL_UNARY_OP op_abs_query_fails t_y
                       (ctx0 mem_x)).2)
     <> destroyed (trace (GGML_CANN_CALL_UNARY_OP op_abs_query_fails t_y
                            (ctx0 mem_x)).2).
Proof. vm_compute. repeat split. discriminate. Qed.

(** The same node on a healthy device returns with two handles created
    and two destroyed; on the device whose query fails it ends in the
    fault with two created and none destroyed. *)
Lemma handles_balanced_on_return_witness :
  (created (trace (GGML_CANN_CALL_UNARY_OP op_abs t_y (ctx0 mem_x)).2) = 2%nat
   /\ destroyed (trace (GGML_CANN_CALL_UNARY_OP op_abs t_y (ctx0 mem_x)).2)
      = 2%nat)
  /\ ((GGML_CANN_CALL_UNARY_OP op_abs_query_fails t_y (ctx0 mem_x)).1
      = Fatal (AclFault "aclnnAbsGetWorkspaceSize" 1)
      /\ created (trace (GGML_CANN_CALL_UNARY_OP op_abs_query_fails t_y
                           (ctx0 mem_x)).2) = 2%nat
      /\ destroyed (trace (GGML_CANN_CALL_UNARY_OP op_abs_query_fails t_y
                             (ctx0 mem_x)).2) = 0%nat).
Proof.
  destruct (handles_balanced_on_return (T := Z) (P := Z)
              (Hrt := healthy_runtime)) as [Hunary _].
  split.
  - exact (proj1 (Hunary call_abs t_y t_x (ctx0 mem_x) eq_refl
                    (fun a b => call_handle_neutral op_abs [a; b]))
             ltac:(vm_compute; reflexivity)).
  - exact (proj2 (Hunary call_abs_query_fails t_y t_x (ctx0 mem_x) eq_refl
                    (fun a b => call_handle_neutral op_abs_query_fails [a; b]))
             (AclFault "aclnnAbsGetWorkspaceSize" 1)
             ltac:(vm_compute; reflexivity)).
Defined.

(** On a runtime that refuses to destroy the destination handle, the
    unary template ends in the fault of that destroy statement. *)
Lemma destroy_status_checked_witness :
  aclDestroyTensor_status (acl_runtime := faulty_runtime) (handle_of t_y 1)
  <> ACL_SUCCESS
  /\ exists stmt h',
      h' ∈ [handle_of t_x 0; handle_of t_y 1]
      /\ aclDestroyTensor_status (acl_runtime := faulty_runtime) h'
         <> ACL_SUCCESS
      /\ (ggml_cann_unary_op (Hrt := faulty_runtime) call_abs t_y
            (ctx0 mem_x)).1
         = Fatal (AclFault stmt
                    (aclDestroyTensor_status (acl_runtime := faulty_runtime) h')).
Proof.
  assert (Hst : aclDestroyTensor_status (acl_runtime := faulty_runtime)
                  (handle_of t_y 1) <> ACL_SUCCESS)
    by (vm_compute; discriminate).
  split; [exact Hst |].
  destruct (destroy_status_checked (T := Z) (P := Z) (Hrt := faulty_runtime))
    as [Hunary _].
  exact (Hunary call_abs t_y t_x (ctx0 mem_x)
           (call_abs (handle_of t_x 0) (handle_of t_y 1)
                     (unary_entry (ctx0 mem_x))).2
           (handle_of t_y 1) eq_refl ltac:(vm_compute; reflexivity)
           ltac:(repeat constructor) Hst).
Defined.

(** ** Scenario: the same unary operator twice *)

Lemma unary_op_repeatable_witness :
  (src t_y !! 0%nat = Some t_x /\ ne t_x = ne t_y)
  /\ exists s' s'',
      GGML_CANN_CALL_UNARY_OP op_abs t_y (ctx0 mem_x) = (Done tt, s')
      /\ GGML_CANN_CALL_UNARY_OP op_abs t_y s' = (Done tt, s'')
      /\ forall idx, idx ∈ indices (ne t_y) ->
           device_mem s'' !!! tensor_addr t_y idx
           = device_mem s' !!! tensor_addr t_y idx.
Proof.
  split; [split; reflexivity |].
  destruct (unary_op_repeatable (Hrt := healthy_runtime) Z.abs "Abs" query32
              t_y t_x eq_refl eq_refl eq_refl eq_refl
              (fun _ => eq_refl) (fun _ => eq_refl)) as [_ Hseq].
  apply (Hseq (ctx0 mem_x)).
  intros i j Hi Hj.
  change (indices (ne t_x)) with [[0;0;0;0]; [1;0;0;0]; [2;0;0;0]] in Hi.
  change (indices (ne t_y)) with [[0;0;0;0]; [1;0;0;0]; [2;0;0;0]] in Hj.
  apply list_elem_of_In in Hi, Hj. simpl in Hi, Hj.
  destruct Hi as [<- | [<- | [<- | []]]];
    destruct Hj as [<- | [<- | [<- | []]]]; vm_compute; discriminate.
Defined.

(** * Further properties of the dispatch core *)

Section Further.

Context {T : Type} `{Hinh : Inhabited T}.
Context {P : Type} `{Hpool : cann_pool P}.
Context `{Hrt : acl_runtime}.

Local Abbreviation M := (@M T P).
Local Abbreviation ggml_tensor := (@ggml_tensor T).
Local Abbreviation cann_context := (@cann_context T P).
Local Abbreviation aclnn_op := (@aclnn_op T).

Implicit Types (s : cann_context) (op : aclnn_op) (args : list aclTensor).

(** The three paths of the two-phase call in one statement. *)
Lemma call_run op args s :
  GGML_CANN_CALL_ACLNN_OP op args s
  = let q := op_GetWorkspaceSize op args in
    if Z.eqb q.1 ACL_SUCCESS then
      let ptr := (pool_alloc (pool s) q.2).1 in
      let k := op_kernel op args (device_mem s) in
      (if Z.eqb k.1 ACL_SUCCESS then Done tt
       else Fatal (AclFault (stmt_launch op) k.1),
       Ctx (trace s ++ [EvGetWorkspaceSize (op_name op)]
              ++ workspace_events q.2 ptr
              ++ [EvLaunch (op_name op) (workspace_addr q.2 ptr) q.2])
           k.2
           (if N.eqb q.2 0 then pool s
            else pool_free (pool_alloc (pool s) q.2).2 ptr)
           (next_id s))
    else (Fatal (AclFault (stmt_query op) q.1), after_query op s).
Proof.
  destruct (op_GetWorkspaceSize op args) as [qst n] eqn:Hq. cbn zeta; simpl.
  destruct (Z.eqb_spec qst ACL_SUCCESS) as [-> | Hne].
  - destruct (op_kernel op args (device_mem s)) as [kst m'] eqn:Hk.
    unfold workspace_events, workspace_addr.
    destruct (N.eqb_spec n 0) as [-> | Hn].
    + rewrite (call_no_workspace _ _ _ _ _ Hq Hk). reflexivity.
    + destruct (pool_alloc (pool s) n) as [ptr p'] eqn:Ha.
      rewrite (call_with_workspace _ _ _ _ _ _ _ _ Hq Hn Ha Hk). reflexivity.
  - apply (call_query_failed _ _ _ _ _ Hq Hne).
Qed.

(** X1: on every path, failing ones included, the two-phase call
    creates no handle and issues no destroy call, leaves the handle
    counter alone, acquires from the pool at most once, and releases
    exactly what it acquired: every acquired pointer is released within
    the call. *)
Theorem call_resource_neutral op args s :
  next_id (GGML_CANN_CALL_ACLNN_OP op args s).2 = next_id s
  /\ exists evs,
      trace (GGML_CANN_CALL_ACLNN_OP op args s).2 = trace s ++ evs
      /\ count is_create evs = 0%nat
      /\ count is_destroy_call evs = 0%nat
      /\ count is_pool_alloc evs = count is_pool_free evs
      /\ (count is_pool_alloc evs <= 1)%nat
      /\ forall n ptr, EvPoolAlloc n ptr ∈ evs -> EvPoolFree ptr ∈ evs.
Proof.
  rewrite call_run. cbn zeta.
  destruct (Z.eqb (op_GetWorkspaceSize op args).1 ACL_SUCCESS).
  - split; [reflexivity |]. eexists. split; [reflexivity |].
    unfold workspace_events.
    destruct (N.eqb (op_GetWorkspaceSize op args).2 0); unfold count; simpl;
      (repeat split; [lia |]); intros n ptr Hin.
    + repeat (apply elem_of_cons in Hin as [Hin | Hin]; [discriminate |]).
      apply elem_of_nil in Hin. contradiction.
    + apply elem_of_cons in Hin as [Hin | Hin]; [discriminate |].
      apply elem_of_cons in Hin as [Hin | Hin].
      * injection Hin as -> ->. repeat constructor.
      * repeat (apply elem_of_cons in Hin as [Hin | Hin]; [discriminate |]).
        apply elem_of_nil in Hin. contradiction.
  - split; [reflexivity |]. eexists. split; [reflexivity |].
    unfold count; simpl. repeat split; [lia |]. intros n ptr Hin.
    apply elem_of_cons in Hin as [Hin | Hin]; [discriminate |].
    apply elem_of_nil in Hin. contradiction.
Qed.

(** X2: the two-phase call returns if and only if both device calls
    report success: the workspace-size query for these arguments and the
    kernel submitted on the memory of the call. *)
Theorem call_returns_iff op args s :
  (GGML_CANN_CALL_ACLNN_OP op args s).1 = Done tt
  <-> (op_GetWorkspaceSize op args).1 = ACL_SUCCESS
      /\ (op_kernel op args (device_mem s)).1 = ACL_SUCCESS.
Proof.
  rewrite call_run. cbn zeta.
  destruct (Z.eqb_spec (op_GetWorkspaceSize op args).1 ACL_SUCCESS) as [Eq | Eq].
  - destruct (Z.eqb_spec (op_kernel op args (device_mem s)).1 ACL_SUCCESS)
      as [Ek | Ek]; simpl.
    + split; auto.
    + split; [discriminate | intros [_ Hk]; contradiction].
  - simpl. split; [discriminate | intros [Hq _]; contradiction].
Qed.

(** X3: with a pool of stack discipline the two-phase call leaves the
    pool exactly as it found it, on every path; so a call made right
    after it, whose query succeeds with a nonzero size, is given the
    very address the pool would have given before the first call. *)
Theorem call_restores_lifo_pool op args s :
  pool_lifo P ->
  pool (GGML_CANN_CALL_ACLNN_OP op args s).2 = pool s
  /\ forall op2 args2 n2,
      op_GetWorkspaceSize op2 args2 = (ACL_SUCCESS, n2) ->
      n2 <> 0%N ->
      trace (GGML_CANN_CALL_ACLNN_OP op2 args2
               (GGML_CANN_CALL_ACLNN_OP op args s).2).2
      = trace (GGML_CANN_CALL_ACLNN_OP op args s).2
        ++ [EvGetWorkspaceSize (op_name op2);
            EvPoolAlloc n2 (pool_alloc (pool s) n2).1;
            EvPoolFree (pool_alloc (pool s) n2).1;
            EvLaunch (op_name op2) (pool_alloc (pool s) n2).1 n2].
Proof.
  intros Hlifo.
  assert (Hpool' : pool (GGML_CANN_CALL_ACLNN_OP op args s).2 = pool s).
  { rewrite call_run. cbn zeta.
    destruct (Z.eqb (op_GetWorkspaceSize op args).1 ACL_SUCCESS);
      [| reflexivity].
    simpl. destruct (N.eqb (op_GetWorkspaceSize op args).2 0); [reflexivity |].
    apply (Hlifo _ _ (op_GetWorkspaceSize op args).2).
    destruct (pool_alloc (pool s) (op_GetWorkspaceSize op args).2);
      reflexivity. }
  split; [exact Hpool' |].
  intros op2 args2 n2 Hq2 Hn2.
  set (s1 := (GGML_CANN_CALL_ACLNN_OP op args s).2) in *.
  destruct (pool_alloc (pool s1) n2) as [ptr p'] eqn:Ha.
  destruct (op_kernel op2 args2 (device_mem s1)) as [kst m'] eqn:Hk.
  rewrite (call_with_workspace _ _ _ _ _ _ _ _ Hq2 Hn2 Ha Hk); simpl.
  rewrite <- Hpool', Ha. reflexivity.
Qed.

(** The destroy calls at the end of the templates, as a prefix. *)
Lemma unary_exit_prefix (a b : aclTensor) s :
  (unary_exit a b s).2
  = Ctx (trace s ++ destroy_prefix [a; b]) (device_mem s) (pool s) (next_id s)
  /\ ((unary_exit a b s).1 = Done tt
      <-> aclDestroyTensor_status a = ACL_SUCCESS
          /\ aclDestroyTensor_status b = ACL_SUCCESS).
Proof.
  rewrite unary_exit_run. simpl.
  destruct (Z.eqb_spec (aclDestroyTensor_status a) ACL_SUCCESS) as [Ea | Ea];
    simpl.
  - destruct (Z.eqb_spec (aclDestroyTensor_status b) ACL_SUCCESS) as [Eb | Eb];
      (split; [reflexivity |]); split; auto; try discriminate.
    intros [_ Hb]. contradiction.
  - split; [reflexivity |]. split; [discriminate |].
    intros [Ha _]. contradiction.
Qed.

Lemma binary_exit_prefix (a b c : aclTensor) s :
  (binary_exit a b c s).2
  = Ctx (trace s ++ destroy_prefix [a; b; c])
        (device_mem s) (pool s) (next_id s)
  /\ ((binary_exit a b c s).1 = Done tt
      <-> aclDestroyTensor_status a = ACL_SUCCESS
          /\ aclDestroyTensor_status b = ACL_SUCCESS
          /\ aclDestroyTensor_status c = ACL_SUCCESS).
Proof.
  rewrite binary_exit_run. simpl.
  destruct (Z.eqb_spec (aclDestroyTensor_status a) ACL_SUCCESS) as [Ea | Ea];
    simpl.
  - destruct (Z.eqb_spec (aclDestroyTensor_status b) ACL_SUCCESS) as [Eb | Eb];
      simpl.
    + destruct (Z.eqb_spec (aclDestroyTensor_status c) ACL_SUCCESS)
        as [Ec | Ec];
        (split; [reflexivity |]); split; auto; try discriminate.
      intros (_ & _ & Hc). contradiction.
    + split; [reflexivity |]. split; [discriminate |].
      intros (_ & Hb & _). contradiction.
  - split; [reflexivity |]. split; [discriminate |].
    intros (Ha & _). contradiction.
Qed.

(** X4: a call of [GGML_CANN_CALL_UNARY_OP] on a node with a source
    returns if and only if every device call it makes reports success:
    the query and the kernel on the two handles of the node, and the
    destruction of each of the two handles. *)
Theorem unary_call_returns_iff op (dst src_t : ggml_tensor) s :
  src dst !! 0%nat = Some src_t ->
  (GGML_CANN_CALL_UNARY_OP op dst s).1 = Done tt
  <-> (op_GetWorkspaceSize op [handle_of src_t (next_id s);
                               handle_of dst (S (next_id s))]).1
      = ACL_SUCCESS
      /\ (op_kernel op [handle_of src_t (next_id s);
                        handle_of dst (S (next_id s))] (device_mem s)).1
         = ACL_SUCCESS
      /\ aclDestroyTensor_status (handle_of src_t (next_id s)) = ACL_SUCCESS
      /\ aclDestroyTensor_status (handle_of dst (S (next_id s))) = ACL_SUCCESS.
Proof.
  intros Hsrc. unfold GGML_CANN_CALL_UNARY_OP.
  rewrite (unary_op_run _ _ _ _ Hsrc), call_run. cbn zeta.
  set (a := handle_of src_t (next_id s)).
  set (b := handle_of dst (S (next_id s))).
  change (device_mem (unary_entry s)) with (device_mem s).
  destruct (Z.eqb_spec (op_GetWorkspaceSize op [a; b]).1 ACL_SUCCESS)
    as [Eq | Eq].
  - destruct (Z.eqb_spec (op_kernel op [a; b] (device_mem s)).1 ACL_SUCCESS)
      as [Ek | Ek].
    + match goal with |- (unary_exit a b ?s3).1 = _ <-> _ =>
        destruct (unary_exit_prefix a b s3) as [_ Hiff] end.
      rewrite Hiff. tauto.
    + simpl. split; [discriminate | intros (_ & Hk & _); contradiction].
  - simpl. split; [discriminate | intros (Hq & _); contradiction].
Qed.

(** X5: once the resolver has produced the three handles, a call of the
    binary template around a two-phase operator returns if and only if
    the query and the kernel on those handles and the destruction of
    each of the three handles report success. *)
Theorem binary_call_returns_iff op (dst src0 src1 : ggml_tensor) s
    (h0 h1 hd : aclTensor) s1 :
  src dst !! 0%nat = Some src0 ->
  src dst !! 1%nat = Some src1 ->
  bcast_shape src0 src1 dst s = (Done (h0, h1, hd), s1) ->
  (ggml_cann_binary_op (aclnn_binary op) dst s).1 = Done tt
  <-> (op_GetWorkspaceSize op [h0; h1; hd]).1 = ACL_SUCCESS
      /\ (op_kernel op [h0; h1; hd] (device_mem s1)).1 = ACL_SUCCESS
      /\ aclDestroyTensor_status h0 = ACL_SUCCESS
      /\ aclDestroyTensor_status h1 = ACL_SUCCESS
      /\ aclDestroyTensor_status hd = ACL_SUCCESS.
Proof.
  intros Hs0 Hs1 Hb.
  rewrite (binary_op_run _ _ _ _ _ Hs0 Hs1), Hb.
  unfold aclnn_binary. rewrite call_run. cbn zeta.
  destruct (Z.eqb_spec (op_GetWorkspaceSize op [h0; h1; hd]).1 ACL_SUCCESS)
    as [Eq | Eq].
  - destruct (Z.eqb_spec (op_kernel op [h0; h1; hd] (device_mem s1)).1
                ACL_SUCCESS) as [Ek | Ek].
    + match goal with |- (binary_exit h0 h1 hd ?s3).1 = _ <-> _ =>
        destruct (binary_exit_prefix h0 h1 hd s3) as [_ Hiff] end.
      rewrite Hiff. tauto.
    + simpl. split; [discriminate | intros (_ & Hk & _); contradiction].
  - simpl. split; [discriminate | intros (Hq & _); contradiction].
Qed.

(** X6: the templates themselves never touch device memory or the
    pool.  On every path of the unary template, and of the binary
    template once the resolver has produced its handles, the memory and
    the pool at the end of the call are those the wrapped procedure
    left, whatever that procedure is and however the destroy calls
    end. *)
Theorem templates_leave_memory_to_operator :
  (forall (unary_op : aclTensor -> aclTensor -> M unit)
          (dst src_t : ggml_tensor) s,
      src dst !! 0%nat = Some src_t ->
      let w := unary_op (handle_of src_t (next_id s))
                        (handle_of dst (S (next_id s))) (unary_entry s) in
      device_mem (ggml_cann_unary_op unary_op dst s).2 = device_mem w.2
      /\ pool (ggml_cann_unary_op unary_op dst s).2 = pool w.2)
  /\ (forall (binary_op : aclTensor -> aclTensor -> aclTensor -> M unit)
             (dst src0 src1 : ggml_tensor) s h0 h1 hd s1,
         src dst !! 0%nat = Some src0 ->
         src dst !! 1%nat = Some src1 ->
         bcast_shape src0 src1 dst s = (Done (h0, h1, hd), s1) ->
         let w := binary_op h0 h1 hd s1 in
         device_mem (ggml_cann_binary_op binary_op dst s).2 = device_mem w.2
         /\ pool (ggml_cann_binary_op binary_op dst s).2 = pool w.2).
Proof.
  split.
  - intros unary_op dst src_t s Hsrc w. subst w.
    rewrite (unary_op_run _ _ _ _ Hsrc).
    destruct (unary_op _ _ (unary_entry s)) as [[[] | f] s3]; simpl;
      [| split; reflexivity].
    destruct (unary_exit_prefix (handle_of src_t (next_id s))
                (handle_of dst (S (next_id s))) s3) as [-> _].
    split; reflexivity.
  - intros binary_op dst src0 src1 s h0 h1 hd s1 Hs0 Hs1 Hb w. subst w.
    rewrite (binary_op_run _ _ _ _ _ Hs0 Hs1), Hb.
    destruct (binary_op h0 h1 hd s1) as [[[] | f] s3]; simpl;
      [| split; reflexivity].
    destruct (binary_exit_prefix h0 h1 hd s3) as [-> _].
    split; reflexivity.
Qed.

(** X7: when the wrapped procedure has returned, the templates issue
    their destroy calls in the order in which the handles were created
    and stop at the first one that is refused: the handles after it are
    never passed to a destroy call. *)
Theorem destroys_stop_at_first_failure :
  (forall (unary_op : aclTensor -> aclTensor -> M unit)
          (dst src_t : ggml_tensor) s s3,
      src dst !! 0%nat = Some src_t ->
      unary_op (handle_of src_t (next_id s))
               (handle_of dst (S (next_id s))) (unary_entry s)
      = (Done tt, s3) ->
      trace (ggml_cann_unary_op unary_op dst s).2
      = trace s3 ++ destroy_prefix [handle_of src_t (next_id s);
                                    handle_of dst (S (next_id s))])
  /\ (forall (binary_op : aclTensor -> aclTensor -> aclTensor -> M unit)
             (dst src0 src1 : ggml_tensor) s h0 h1 hd s1 s2,
         src dst !! 0%nat = Some src0 ->
         src dst !! 1%nat = Some src1 ->
         bcast_shape src0 src1 dst s = (Done (h0, h1, hd), s1) ->
         binary_op h0 h1 hd s1 = (Done tt, s2) ->
         trace (ggml_cann_binary_op binary_op dst s).2
         = trace s2 ++ destroy_prefix [h0; h1; hd]).
Proof.
  split.
  - intros unary_op dst src_t s s3 Hsrc Hop.
    rewrite (unary_op_run _ _ _ _ Hsrc), Hop.
    destruct (unary_exit_prefix (handle_of src_t (next_id s))
                (handle_of dst (S (next_id s))) s3) as [-> _].
    reflexivity.
  - intros binary_op dst src0 src1 s h0 h1 hd s1 s2 Hs0 Hs1 Hb Hop.
    rewrite (binary_op_run _ _ _ _ _ Hs0 Hs1), Hb, Hop.
    destruct (binary_exit_prefix h0 h1 hd s2) as [-> _]. reflexivity.
Qed.

(** X8: the events of a call of [GGML_CANN_CALL_UNARY_OP] on a node with
    a source, on every path.  The two handles are created first, source
    before destination, then the query is made; if it succeeds the
    workspace is acquired and released (when one is needed) and the
    operator is submitted; and only if the submission succeeds are the
    handles passed to the destroy calls, right after the submission. *)
Theorem unary_call_trace op (dst src_t : ggml_tensor) s :
  src dst !! 0%nat = Some src_t ->
  let a := handle_of src_t (next_id s) in
  let b := handle_of dst (S (next_id s)) in
  let q := op_GetWorkspaceSize op [a; b] in
  let ptr := (pool_alloc (pool s) q.2).1 in
  trace (GGML_CANN_CALL_UNARY_OP op dst s).2
  = trace s
    ++ [EvCreateTensor (next_id s); EvCreateTensor (S (next_id s));
        EvGetWorkspaceSize (op_name op)]
    ++ (if Z.eqb q.1 ACL_SUCCESS then
          workspace_events q.2 ptr
          ++ [EvLaunch (op_name op) (workspace_addr q.2 ptr) q.2]
          ++ (if Z.eqb (op_kernel op [a; b] (device_mem s)).1 ACL_SUCCESS
              then destroy_prefix [a; b] else [])
        else []).
Proof.
  intros Hsrc a b q ptr. unfold GGML_CANN_CALL_UNARY_OP.
  rewrite (unary_op_run _ _ _ _ Hsrc), call_run. cbn zeta.
  fold a b. fold q.
  change (device_mem (unary_entry s)) with (device_mem s).
  change (pool (unary_entry s)) with (pool s). fold ptr.
  destruct (Z.eqb q.1 ACL_SUCCESS).
  - destruct (Z.eqb (op_kernel op [a; b] (device_mem s)).1 ACL_SUCCESS).
    + match goal with |- trace (unary_exit a b ?s3).2 = _ =>
        destruct (unary_exit_prefix a b s3) as [-> _] end.
      unfold unary_entry; simpl.
      repeat first [rewrite <- app_assoc | progress simpl]. reflexivity.
    + unfold unary_entry; simpl. rewrite ?app_nil_r.
      repeat first [rewrite <- app_assoc | progress simpl]. reflexivity.
  - unfold after_query, unary_entry; simpl.
    repeat first [rewrite <- app_assoc | progress simpl]. reflexivity.
Qed.

Lemma destroyed_prefix2 (a b : aclTensor) :
  (destroyed (destroy_prefix [a; b]) <= 2)%nat
  /\ (destroyed (destroy_prefix [a; b]) = 2%nat
      <-> aclDestroyTensor_status a = ACL_SUCCESS
          /\ aclDestroyTensor_status b = ACL_SUCCESS)
  /\ created (destroy_prefix [a; b]) = 0%nat.
Proof.
  unfold destroyed, created, count. simpl.
  destruct (Z.eqb_spec (aclDestroyTensor_status a) ACL_SUCCESS) as [Ea | Ea];
    simpl.
  - destruct (Z.eqb_spec (aclDestroyTensor_status b) ACL_SUCCESS) as [Eb | Eb];
      simpl; repeat split; intros; try lia; try tauto.
  - repeat split; intros; try lia; try tauto.
Qed.

Lemma created_cons (e : event) (tr : list event) :
  created (e :: tr) = ((if is_create e then 1 else 0) + created tr)%nat.
Proof. unfold created, count. simpl. destruct (is_create e); reflexivity. Qed.

Lemma destroyed_cons (e : event) (tr : list event) :
  destroyed (e :: tr) = ((if is_destroy e then 1 else 0) + destroyed tr)%nat.
Proof.
  unfold destroyed, count. simpl. destruct (is_destroy e); reflexivity.
Qed.

(** X9: a call of [GGML_CANN_CALL_UNARY_OP] on a node with a source
    creates exactly two handles on every path and never destroys more
    than two; it has destroyed both if and only if it returns.  So every
    failing path, whichever device call fails, leaves a handle that was
    not destroyed. *)
Theorem unary_call_leaks_iff_fails op (dst src_t : ggml_tensor) s :
  src dst !! 0%nat = Some src_t ->
  created (trace (GGML_CANN_CALL_UNARY_OP op dst s).2)
  = (created (trace s) + 2)%nat
  /\ (destroyed (trace (GGML_CANN_CALL_UNARY_OP op dst s).2)
      <= destroyed (trace s) + 2)%nat
  /\ (destroyed (trace (GGML_CANN_CALL_UNARY_OP op dst s).2)
      = (destroyed (trace s) + 2)%nat
      <-> (GGML_CANN_CALL_UNARY_OP op dst s).1 = Done tt).
Proof.
  intros Hsrc. unfold GGML_CANN_CALL_UNARY_OP.
  rewrite (unary_op_run _ _ _ _ Hsrc), call_run. cbn zeta.
  set (a := handle_of src_t (next_id s)).
  set (b := handle_of dst (S (next_id s))).
  set (q := op_GetWorkspaceSize op [a; b]).
  set (ptr := (pool_alloc (pool (unary_entry s)) q.2).1).
  assert (Hws : created (workspace_events q.2 ptr) = 0%nat
                /\ destroyed (workspace_events q.2 ptr) = 0%nat)
    by (unfold workspace_events; destruct (N.eqb q.2 0); split; reflexivity).
  destruct Hws as [Hwc Hwd].
  destruct (destroyed_prefix2 a b) as (Hle & Hiff & Hcr).
  assert (Hc0 : created (@nil event) = 0%nat) by reflexivity.
  assert (Hd0 : destroyed (@nil event) = 0%nat) by reflexivity.
  destruct (Z.eqb q.1 ACL_SUCCESS).
  - destruct (Z.eqb (op_kernel op [a; b] (device_mem (unary_entry s))).1
                ACL_SUCCESS).
    + match goal with |- context [unary_exit a b ?s3] =>
        destruct (unary_exit_prefix a b s3) as [-> Hdone]; rewrite Hdone end.
      unfold unary_entry; cbn [trace snd fst].
      rewrite !created_app, !destroyed_app, !created_cons, !destroyed_cons,
        Hwc, Hwd, Hcr, Hc0, Hd0.
      cbn [is_create is_destroy]. rewrite <- Hiff.
      split; [lia | split; [lia | split; lia]].
    + unfold unary_entry; cbn [trace snd fst].
      rewrite !created_app, !destroyed_app, !created_cons, !destroyed_cons,
        Hwc, Hwd, Hc0, Hd0.
      cbn [is_create is_destroy].
      split; [lia | split; [lia | split; [lia | discriminate]]].
  - unfold after_query, unary_entry; cbn [trace snd fst].
    rewrite !created_app, !destroyed_app, !created_cons, !destroyed_cons,
      Hc0, Hd0.
    cbn [is_create is_destroy].
    split; [lia | split; [lia | split; [lia | discriminate]]].
Qed.

(** X10: the only thing that changes device memory in a call of
    [GGML_CANN_CALL_UNARY_OP] is the single kernel run on the two
    handles of the node.  When the query succeeds the memory at the end
    of the call is the memory that kernel left, whether the kernel and
    the destroy calls succeed or not; when the query fails the memory is
    untouched. *)
Theorem unary_call_memory op (dst src_t : ggml_tensor) s :
  src dst !! 0%nat = Some src_t ->
  let a := handle_of src_t (next_id s) in
  let b := handle_of dst (S (next_id s)) in
  device_mem (GGML_CANN_CALL_UNARY_OP op dst s).2
  = if Z.eqb (op_GetWorkspaceSize op [a; b]).1 ACL_SUCCESS
    then (op_kernel op [a; b] (device_mem s)).2
    else device_mem s.
Proof.
  intros Hsrc a b. unfold GGML_CANN_CALL_UNARY_OP.
  rewrite (unary_op_run _ _ _ _ Hsrc), call_run. cbn zeta. fold a b.
  change (device_mem (unary_entry s)) with (device_mem s).
  destruct (Z.eqb (op_GetWorkspaceSize op [a; b]).1 ACL_SUCCESS);
    [| reflexivity].
  destruct (Z.eqb (op_kernel op [a; b] (device_mem s)).1 ACL_SUCCESS);
    [| reflexivity].
  match goal with |- device_mem (unary_exit a b ?s3).2 = _ =>
    destruct (unary_exit_prefix a b s3) as [-> _] end.
  reflexivity.
Qed.

End Further.

(** ** Scenarios for the further properties *)

Lemma call_restores_lifo_pool_witness :
  @pool_lifo stack_pool stack_pool_ops
  /\ pool (GGML_CANN_CALL_ACLNN_OP (Hpool := stack_pool_ops)
             op_abs abs_args (ctx_stack mem_x)).2
     = StackTop 4096.
Proof.
  assert (Hlifo : @pool_lifo stack_pool stack_pool_ops).
  { intros [t] p' n ptr Ha. simpl in Ha. injection Ha as <- <-. reflexivity. }
  split; [exact Hlifo |].
  exact (proj1 (call_restores_lifo_pool (Hpool := stack_pool_ops)
                  op_abs abs_args (ctx_stack mem_x) Hlifo)).
Defined.

Lemma unary_call_returns_iff_witness :
  src t_y !! 0%nat = Some t_x
  /\ (GGML_CANN_CALL_UNARY_OP op_abs t_y (ctx0 mem_x)).1 = Done tt.
Proof.
  split; [reflexivity |].
  apply (unary_call_returns_iff (Hrt := healthy_runtime) op_abs t_y t_x
           (ctx0 mem_x) eq_refl).
  repeat split.
Defined.

Lemma binary_call_returns_iff_witness :
  bcast_shape t_src0 t_src1 t_add (ctx0 mem_add)
  = (Done (add_h0, add_h1, add_hd), binary_entry (ctx0 mem_add))
  /\ (ggml_cann_binary_op (aclnn_binary op_add) t_add (ctx0 mem_add)).1
     = Done tt.
Proof.
  assert (Hb : bcast_shape t_src0 t_src1 t_add (ctx0 mem_add)
               = (Done (add_h0, add_h1, add_hd), binary_entry (ctx0 mem_add)))
    by (vm_compute; reflexivity).
  split; [exact Hb |].
  apply (binary_call_returns_iff (Hrt := healthy_runtime) op_add t_add
           t_src0 t_src1 (ctx0 mem_add) add_h0 add_h1 add_hd _
           eq_refl eq_refl Hb).
  repeat split.
Defined.

Lemma templates_leave_memory_to_operator_witness :
  src t_y !! 0%nat = Some t_x
  /\ device_mem (ggml_cann_unary_op call_abs_query_fails t_y (ctx0 mem_x)).2
     = mem_x.
Proof.
  split; [reflexivity |].
  destruct (templates_leave_memory_to_operator (T := Z) (P := Z)
              (Hrt := healthy_runtime)) as [Hunary _].
  exact (proj1 (Hunary call_abs_query_fails t_y t_x (ctx0 mem_x) eq_refl)).
Defined.

(** On the runtime that refuses to destroy the destination handle both
    destroy calls are issued; the second is the refused one. *)
Lemma destroys_stop_at_first_failure_witness :
  call_abs (handle_of t_x 0) (handle_of t_y 1) (unary_entry (ctx0 mem_x))
  = (Done tt,
     (call_abs (handle_of t_x 0) (handle_of t_y 1)
               (unary_entry (ctx0 mem_x))).2)
  /\ trace (ggml_cann_unary_op (Hrt := faulty_runtime) call_abs t_y
              (ctx0 mem_x)).2
     = [EvCreateTensor 0; EvCreateTensor 1; EvGetWorkspaceSize "Abs";
        EvPoolAlloc 32 4096; EvPoolFree 4096; EvLaunch "Abs" 4096 32;
        EvDestroyTensor 0 0; EvDestroyTensor 1 1].
Proof.
  assert (Hop : call_abs (handle_of t_x 0) (handle_of t_y 1)
                  (unary_entry (ctx0 mem_x))
                = (Done tt,
                   (call_abs (handle_of t_x 0) (handle_of t_y 1)
                             (unary_entry (ctx0 mem_x))).2))
    by (vm_compute; reflexivity).
  split; [exact Hop |].
  destruct (destroys_stop_at_first_failure (T := Z) (P := Z)
              (Hrt := faulty_runtime)) as [Hunary _].
  rewrite (Hunary call_abs t_y t_x (ctx0 mem_x) _ eq_refl Hop).
  vm_compute. reflexivity.
Defined.

Lemma unary_call_trace_witness :
  src t_y !! 0%nat = Some t_x
  /\ trace (GGML_CANN_CALL_UNARY_OP op_abs t_y (ctx0 mem_x)).2
     = [EvCreateTensor 0; EvCreateTensor 1; EvGetWorkspaceSize "Abs";
        EvPoolAlloc 32 4096; EvPoolFree 4096; EvLaunch "Abs" 4096 32;
        EvDestroyTensor 0 0; EvDestroyTensor 1 0].
Proof.
  split; [reflexivity |].
  rewrite (unary_call_trace (Hrt := healthy_runtime) op_abs t_y t_x
             (ctx0 mem_x) eq_refl).
  reflexivity.
Defined.

Lemma unary_call_leaks_iff_fails_witness :
  src t_y !! 0%nat = Some t_x
  /\ created (trace (GGML_CANN_CALL_UNARY_OP op_abs_launch_fails t_y
                       (ctx0 mem_x)).2) = 2%nat
  /\ (destroyed (trace (GGML_CANN_CALL_UNARY_OP op_abs t_y (ctx0 mem_x)).2)
      = 2%nat
      <-> (GGML_CANN_CALL_UNARY_OP op_abs t_y (ctx0 mem_x)).1 = Done tt).
Proof.
  split; [reflexivity |]. split.
  - exact (proj1 (unary_call_leaks_iff_fails (Hrt := healthy_runtime)
                    op_abs_launch_fails t_y t_x (ctx0 mem_x) eq_refl)).
  - exact (proj2 (proj2 (unary_call_leaks_iff_fails (Hrt := healthy_runtime)
                           op_abs t_y t_x (ctx0 mem_x) eq_refl))).
Defined.

Lemma unary_call_memory_witness :
  src t_y !! 0%nat = Some t_x
  /\ contents (device_mem (GGML_CANN_CALL_UNARY_OP op_abs t_y
                             (ctx0 mem_x)).2) t_y
     = [1; 5; 2].
Proof.
  split; [reflexivity |].
  rewrite (unary_call_memory (Hrt := healthy_runtime) op_abs t_y t_x
             (ctx0 mem_x) eq_refl).
  vm_compute. reflexivity.
Defined.
